(** * aws-ssh-reader: the directory listing parser and summarizer

    A shallow embedding of [AWSSSHClient.list_directory],
    [AWSSSHClient.get_directory_summary] and [AWSSSHClient._parse_size]
    of [aws_ssh_client.py], with the Python built-ins they rest on, and of
    their neighbours [execute_command], [get_system_info],
    [change_directory], [get_ssh_config] and the directory list of [main].

    Text is a list of characters whose code points are below 256 (the
    [ascii] type read as Latin-1).  Floats are IEEE binary64 values, taken
    from the standard library's [SpecFloat] with [prec = 53] and
    [emax = 1024].  A call that can raise returns a [result]. *)

From Stdlib Require Import List Bool Arith ZArith QArith Lia.
From Stdlib Require Import Ascii String DecimalString.
From Stdlib Require Import Floats.SpecFloat.
From Stdlib Require Import Sorting.Permutation Sorting.Sorted.
Import ListNotations.

Local Open Scope Z_scope.
Local Open Scope list_scope.

(** ** Python [str] *)

Module PyStr.

Definition pystr := list ascii.

(** A literal. *)
Definition str (s : string) : pystr := list_ascii_of_string s.

Definition code (c : ascii) : N := N_of_ascii c.

(** [str.isspace] on one character: the code points below 256 that Python
    treats as whitespace. *)
Definition isspace (c : ascii) : bool :=
  let n := code c in
  ((9 <=? n) && (n <=? 13) || (28 <=? n) && (n <=? 32)
   || (n =? 133) || (n =? 160))%N.

(** ASCII decimal digits, the only characters [float] reads as digits. *)
Definition is_ascii_digit (c : ascii) : bool :=
  let n := code c in ((48 <=? n) && (n <=? 57))%N.

(** One character of [str.isdigit]: the ASCII digits and the superscript
    digits U+00B2, U+00B3 and U+00B9. *)
Definition isdigit_char (c : ascii) : bool :=
  let n := code c in
  (is_ascii_digit c || (n =? 178) || (n =? 179) || (n =? 185))%N.

(** [s.isdigit()]: non-empty and every character is a digit. *)
Definition isdigit (s : pystr) : bool :=
  match s with
  | [] => false
  | _ => forallb isdigit_char s
  end.

(** [s.replace(c, '')] for a one-character [c]. *)
Definition remove_char (c : ascii) (s : pystr) : pystr :=
  filter (fun x => negb (Ascii.eqb x c)) s.

(** [s.endswith(c)] for a one-character [c]. *)
Fixpoint endswith_char (s : pystr) (c : ascii) : bool :=
  match s with
  | [] => false
  | [x] => Ascii.eqb x c
  | _ :: s' => endswith_char s' c
  end.

(** [s[:-1]]. *)
Definition drop_last (s : pystr) : pystr := removelast s.

(** [s.startswith(p)]. *)
Fixpoint startswith (s p : pystr) : bool :=
  match p, s with
  | [], _ => true
  | _ :: _, [] => false
  | a :: p', b :: s' => Ascii.eqb a b && startswith s' p'
  end.

Fixpoint lstrip (s : pystr) : pystr :=
  match s with
  | [] => []
  | c :: s' => if isspace c then lstrip s' else s
  end.

Fixpoint rstrip (s : pystr) : pystr :=
  match s with
  | [] => []
  | c :: s' =>
      match rstrip s' with
      | [] => if isspace c then [] else [c]
      | r => c :: r
      end
  end.

(** [s.strip()]. *)
Definition strip (s : pystr) : pystr := rstrip (lstrip s).

(** [s.split(sep)] for a one-character [sep]: never empty. *)
Fixpoint split_on (sep : ascii) (s : pystr) : list pystr :=
  match s with
  | [] => [[]]
  | c :: s' =>
      if Ascii.eqb c sep then [] :: split_on sep s'
      else match split_on sep s' with
           | [] => [[c]]
           | l :: ls => (c :: l) :: ls
           end
  end.

(** [s.split()]: the maximal runs of non-whitespace characters. *)
Fixpoint split (s : pystr) : list pystr :=
  match s with
  | [] => []
  | c :: s' =>
      if isspace c then split s'
      else match s' with
           | [] => [[c]]
           | c' :: _ =>
               if isspace c' then [c] :: split s'
               else match split s' with
                    | [] => [[c]]
                    | tok :: toks => (c :: tok) :: toks
                    end
           end
  end.

(** [sep.join(parts)]. *)
Fixpoint join (sep : pystr) (parts : list pystr) : pystr :=
  match parts with
  | [] => []
  | [p] => p
  | p :: ps => p ++ sep ++ join sep ps
  end.

(** [str(z)] for an [int]. *)
Definition str_of_int (z : Z) : pystr :=
  str (NilZero.string_of_int (Z.to_int z)).

End PyStr.
Import PyStr.

(** ** Exceptions and results *)

Inductive exn : Type :=
  | ValueError_float (s : pystr)  (* float(s): could not convert string to float *)
  | ValueError_int_nan            (* int(nan) *)
  | OverflowError_int_inf         (* int(inf) *)
  | Exception_not_connected.      (* Exception("Not connected to server") *)

Inductive result (A : Type) : Type :=
  | Return (a : A)
  | Raise (e : exn).
Arguments Return {A} a.
Arguments Raise {A} e.

Definition bind {A B : Type} (r : result A) (k : A -> result B) : result B :=
  match r with
  | Return a => k a
  | Raise e => Raise e
  end.

Notation "x <- r ;; k" := (bind r (fun x => k))
  (at level 61, r at next level, right associativity).

(** ** Python numbers: [int] and [float] *)

Module PyNum.

Definition prec : Z := 53.
Definition emax : Z := 1024.

Definition float := spec_float.

Definition fadd : float -> float -> float := SFadd prec emax.
Definition fmul : float -> float -> float := SFmul prec emax.
Definition fdiv : float -> float -> float := SFdiv prec emax.

(** The conversion of an [int] operand to [float] in mixed arithmetic
    (exact for the constants of this program). *)
Definition float_of_int (z : Z) : float := binary_normalize prec emax z 0 false.

(** The float nearest to [n / d], ties to even. *)
Definition float_of_ratio (n d : positive) : float :=
  let '(mz, ez, lz) := SFdiv_core_binary prec emax (Zpos n) 0 (Zpos d) 0 in
  binary_round_aux prec emax false mz ez lz.

Definition digit_value (c : ascii) : Z := Z.of_N (code c) - 48.

Definition digits_value (s : pystr) : Z :=
  fold_left (fun acc c => 10 * acc + digit_value c) s 0.

(** The leading run of ASCII digits and what follows it. *)
Fixpoint span_digits (s : pystr) : pystr * pystr :=
  match s with
  | [] => ([], [])
  | c :: s' =>
      if is_ascii_digit c
      then let '(ds, rest) := span_digits s' in (c :: ds, rest)
      else ([], s)
  end.

(** A decimal numeral [ddd], [ddd.], [ddd.ddd] or [.ddd] with at least one
    digit: its digits and the number of digits after the point. *)
Definition parse_decimal (s : pystr) : option (pystr * nat) :=
  let '(ip, rest) := span_digits s in
  match rest with
  | [] => match ip with [] => None | _ => Some (ip, 0%nat) end
  | c :: fp =>
      if Ascii.eqb c "."%char && forallb is_ascii_digit fp
      then match ip ++ fp with
           | [] => None
           | ds => Some (ds, List.length fp)
           end
      else None
  end.

(** [float(s)] on the strings that reach it in this program: a decimal
    numeral gives the nearest float, anything else raises ValueError.  Every
    call is behind a test that leaves in [s] only characters of
    [str.isdigit], ['.'] and the letters K, M, G; the other forms [float]
    accepts (a sign, an exponent, [inf], [nan], underscores, surrounding
    whitespace) all need a character outside that set, and [float] rejects
    the superscript digits. *)
Definition py_float (s : pystr) : result float :=
  match parse_decimal s with
  | None => Raise (ValueError_float s)
  | Some (ds, k) =>
      match digits_value ds with
      | Zpos n => Return (float_of_ratio n (Z.to_pos (10 ^ Z.of_nat k)))
      | _ => Return (S754_zero false)
      end
  end.

Inductive pynum : Type :=
  | PyInt (z : Z)
  | PyFloat (f : float).

Definition to_float (a : pynum) : float :=
  match a with
  | PyInt z => float_of_int z
  | PyFloat f => f
  end.

(** [a + b], [a * b] and [a / b].  An [int] operand next to a [float] is
    converted to [float]; two [int]s stay in [int] under [+] and [*].  The
    [int] operands of this program are 0 and the products of 1024, which
    convert exactly. *)
Definition py_add (a b : pynum) : pynum :=
  match a, b with
  | PyInt x, PyInt y => PyInt (x + y)
  | _, _ => PyFloat (fadd (to_float a) (to_float b))
  end.

Definition py_mul (a b : pynum) : pynum :=
  match a, b with
  | PyInt x, PyInt y => PyInt (x * y)
  | _, _ => PyFloat (fmul (to_float a) (to_float b))
  end.

Definition py_truediv (a b : pynum) : pynum :=
  PyFloat (fdiv (to_float a) (to_float b)).

(** The exact value of a number. *)
Inductive xval : Type :=
  | XNan
  | XInf (neg : bool)
  | XFin (q : Q).

Definition dyadic (m e : Z) : Q :=
  match e with
  | Zneg p => Qmake m (2 ^ p)
  | _ => inject_Z (m * 2 ^ e)
  end.

Definition value (a : pynum) : xval :=
  match a with
  | PyInt z => XFin (inject_Z z)
  | PyFloat S754_nan => XNan
  | PyFloat (S754_infinity s) => XInf s
  | PyFloat (S754_zero _) => XFin (inject_Z 0)
  | PyFloat (S754_finite s m e) => XFin (dyadic (cond_Zopp s (Zpos m)) e)
  end.

(** Comparison by exact value, as Python compares [int] with [float] and
    [float] with [float]; nothing compares with a NaN. *)
Definition xcompare (x y : xval) : option comparison :=
  match x, y with
  | XNan, _ | _, XNan => None
  | XInf s1, XInf s2 =>
      Some (match s1, s2 with
            | true, false => Lt
            | false, true => Gt
            | _, _ => Eq
            end)
  | XInf s, XFin _ => Some (if s then Lt else Gt)
  | XFin _, XInf s => Some (if s then Gt else Lt)
  | XFin p, XFin q => Some (Qcompare p q)
  end.

Definition py_compare (a b : pynum) : option comparison :=
  xcompare (value a) (value b).

(** [a < b], [a > b], [a == b]. *)
Definition py_lt (a b : pynum) : bool :=
  match py_compare a b with Some Lt => true | _ => false end.
Definition py_gt (a b : pynum) : bool :=
  match py_compare a b with Some Gt => true | _ => false end.
Definition py_eq (a b : pynum) : bool :=
  match py_compare a b with Some Eq => true | _ => false end.

Definition is_nan (a : pynum) : bool :=
  match value a with XNan => true | _ => false end.

(** [int(a)]: truncation toward zero. *)
Definition py_int (a : pynum) : result Z :=
  match a with
  | PyInt z => Return z
  | PyFloat S754_nan => Raise ValueError_int_nan
  | PyFloat (S754_infinity _) => Raise OverflowError_int_inf
  | PyFloat (S754_zero _) => Return 0
  | PyFloat (S754_finite s m e) =>
      Return (cond_Zopp s (match e with
                           | Zneg p => Zpos m / 2 ^ Zpos p
                           | _ => Zpos m * 2 ^ e
                           end))
  end.

(** [n / d] rounded to the nearest integer, ties to even ([0 <= n], [0 < d]). *)
Definition round_half_even (n d : Z) : Z :=
  let q := n / d in
  match 2 * (n mod d) ?= d with
  | Lt => q
  | Gt => q + 1
  | Eq => if Z.even q then q else q + 1
  end.

(** [f"{x:.1f}"] for a float [x]: the exact binary value rounded to one
    decimal, ties to even. *)
Definition format_1f (x : float) : pystr :=
  let sign (s : bool) := if s then str "-" else [] in
  match x with
  | S754_nan => str "nan"
  | S754_infinity s => sign s ++ str "inf"
  | S754_zero s => sign s ++ str "0.0"
  | S754_finite s m e =>
      let tenths :=
        match e with
        | Zneg p => round_half_even (10 * Zpos m) (2 ^ Zpos p)
        | _ => 10 * Zpos m * 2 ^ e
        end in
      sign s ++ str_of_int (tenths / 10) ++ str "." ++ str_of_int (tenths mod 10)
  end.

End PyNum.
Import PyNum.

(** ** The client: [class AWSSSHClient] *)

Module AWSSSHClient.

Local Open Scope string_scope.
Local Open Scope list_scope.

(** What [execute_command] returns. *)
Record CommandResult : Type := {
  stdout : pystr;
  stderr : pystr;
  exit_code : Z
}.

(** One [file_info] dictionary of [list_directory]. *)
Record FileInfo : Type := {
  permissions : pystr;
  links : pystr;
  owner : pystr;
  group : pystr;
  size : pystr;
  month : pystr;
  day : pystr;
  time : pystr;
  name : pystr
}.

(** [parts[i]]; every use is under [len(parts) >= 9]. *)
Definition item (parts : list pystr) (i : nat) : pystr := nth i parts [].

Definition file_info (parts : list pystr) : FileInfo := {|
  permissions := item parts 0;
  links := item parts 1;
  owner := item parts 2;
  group := item parts 3;
  size := item parts 4;
  month := item parts 5;
  day := item parts 6;
  time := item parts 7;
  name := join (str " ") (skipn 8 parts)
|}.

(** The body of [for line in lines], acting on [files]. *)
Definition list_directory_line (files : list FileInfo) (line : pystr)
  : list FileInfo :=
  match strip line with
  | [] => files
  | _ =>
      let parts := split line in
      if (9 <=? List.length parts)%nat then files ++ [file_info parts]
      else files
  end.

(** Skip the total line if present. *)
Definition skip_total (lines : list pystr) : list pystr :=
  match lines with
  | l0 :: rest => if startswith l0 (str "total") then rest else lines
  | [] => lines
  end.

(** [list_directory] from [files = []] to [return files]. *)
Definition parse_listing (out : pystr) : list FileInfo :=
  let lines := split_on "010"%char (strip out) in
  let lines := skip_total lines in
  fold_left list_directory_line lines [].

(** [_parse_size]. *)
Definition _parse_size (size_str : pystr) : result pynum :=
  if match size_str with [] => true | _ => false end
     || negb (isdigit (remove_char "G" (remove_char "M" (remove_char "K"
                         (remove_char "." size_str)))))
  then Return (PyInt 0)
  else if endswith_char size_str "K" then
    f <- py_float (drop_last size_str) ;;
    Return (py_mul (PyFloat f) (PyInt 1024))
  else if endswith_char size_str "M" then
    f <- py_float (drop_last size_str) ;;
    Return (py_mul (py_mul (PyFloat f) (PyInt 1024)) (PyInt 1024))
  else if endswith_char size_str "G" then
    f <- py_float (drop_last size_str) ;;
    Return (py_mul (py_mul (py_mul (PyFloat f) (PyInt 1024)) (PyInt 1024))
                   (PyInt 1024))
  else if isdigit (remove_char "." size_str) then
    f <- py_float size_str ;; Return (PyFloat f)
  else Return (PyInt 0).

(** The body of [for file_info in files], acting on [total_size]. *)
Definition add_size (total_size : pynum) (size_str : pystr) : result pynum :=
  if isdigit (remove_char "." size_str) then
    if endswith_char size_str "K" then
      f <- py_float (drop_last size_str) ;;
      Return (py_add total_size (py_mul (PyFloat f) (PyInt 1024)))
    else if endswith_char size_str "M" then
      f <- py_float (drop_last size_str) ;;
      Return (py_add total_size
                (py_mul (py_mul (PyFloat f) (PyInt 1024)) (PyInt 1024)))
    else if endswith_char size_str "G" then
      f <- py_float (drop_last size_str) ;;
      Return (py_add total_size
                (py_mul (py_mul (py_mul (PyFloat f) (PyInt 1024)) (PyInt 1024))
                        (PyInt 1024)))
    else
      f <- py_float size_str ;; Return (py_add total_size (PyFloat f))
  else Return total_size.

Fixpoint total_size_loop (total_size : pynum) (files : list FileInfo)
  : result pynum :=
  match files with
  | [] => Return total_size
  | f :: rest =>
      t <- add_size total_size (size f) ;; total_size_loop t rest
  end.

(** Convert to human readable format. *)
Definition human_readable (total_size : pynum) : result pystr :=
  if py_gt total_size (PyInt (1024 * 1024 * 1024)) then
    Return (format_1f (to_float (py_truediv total_size
                                   (PyInt (1024 * 1024 * 1024))))
            ++ str "GB")
  else if py_gt total_size (PyInt (1024 * 1024)) then
    Return (format_1f (to_float (py_truediv total_size (PyInt (1024 * 1024))))
            ++ str "MB")
  else if py_gt total_size (PyInt 1024) then
    Return (format_1f (to_float (py_truediv total_size (PyInt 1024)))
            ++ str "KB")
  else
    z <- py_int total_size ;; Return (str_of_int z ++ str " bytes").

(** [sorted(l, key=..., reverse=True)] on a list already decorated with its
    keys: the list is reversed, sorted stably in ascending order with [<]
    only, and reversed again. *)
Section Sorted.
Context {A : Type}.

Fixpoint insert_asc (x : pynum * A) (l : list (pynum * A))
  : list (pynum * A) :=
  match l with
  | [] => [x]
  | y :: l' =>
      if py_lt (fst y) (fst x) then y :: insert_asc x l' else x :: l
  end.

Definition sort_asc (l : list (pynum * A)) : list (pynum * A) :=
  fold_right insert_asc [] l.

Definition sorted_reverse (l : list (pynum * A)) : list (pynum * A) :=
  rev (sort_asc (rev l)).
End Sorted.

(** The keys [self._parse_size(x['size'])], computed once per element and in
    order before any comparison. *)
Fixpoint decorate (files : list FileInfo) : result (list (pynum * FileInfo)) :=
  match files with
  | [] => Return []
  | f :: rest =>
      k <- _parse_size (size f) ;;
      ks <- decorate rest ;;
      Return ((k, f) :: ks)
  end.

(** [sorted(files, key=lambda x: self._parse_size(x['size']), reverse=True)[:3]] *)
Definition largest_files (files : list FileInfo) : result (list FileInfo) :=
  ks <- decorate files ;;
  Return (firstn 3 (map snd (sorted_reverse ks))).

(** The values of the summary dictionary; [VStrOfExn e] is the string
    [str(e)] of the exception [e], whose text is not spelled out. *)
Inductive pyvalue : Type :=
  | VStr (s : pystr)
  | VBool (b : bool)
  | VInt (z : Z)
  | VFiles (l : list FileInfo)
  | VStrOfExn (e : exn).

(** A dictionary with string keys, in insertion order. *)
Definition pydict := list (string * pyvalue).

Fixpoint get (d : pydict) (k : string) : option pyvalue :=
  match d with
  | [] => None
  | (k', v) :: d' => if String.eqb k k' then Some v else get d' k
  end.

Definition keys (d : pydict) : list string := map fst d.

Definition total_files (files : list FileInfo) : Z :=
  Z.of_nat (List.length files).

Definition total_dirs (files : list FileInfo) : Z :=
  Z.of_nat (List.length
              (filter (fun f => startswith (permissions f) (str "d")) files)).

Definition total_regular_files (files : list FileInfo) : Z :=
  total_files files - total_dirs files.

(** [get_directory_summary] after the emptiness test, inside [try]. *)
Definition summary_body (path : pystr) (files : list FileInfo)
  : result pydict :=
  total_size <- total_size_loop (PyInt 0) files ;;
  total_size <- human_readable total_size ;;
  largest <- largest_files files ;;
  Return [ ("path", VStr path);
           ("accessible", VBool true);
           ("total_items", VInt (total_files files));
           ("directories", VInt (total_dirs files));
           ("files", VInt (total_regular_files files));
           ("total_size", VStr total_size);
           ("largest_files", VFiles largest) ].

(** [get_directory_summary] once [files = self.list_directory(path)] is
    known. *)
Definition directory_summary (path : pystr) (files : list FileInfo) : pydict :=
  match files with
  | [] =>
      [ ("path", VStr path);
        ("accessible", VBool false);
        ("error", VStr (str "Directory empty or access denied")) ]
  | _ =>
      match summary_body path files with
      | Return d => d
      | Raise e =>
          [ ("path", VStr path);
            ("accessible", VBool false);
            ("error", VStrOfExn e) ]
      end
  end.

Section Remote.
(** [self.execute_command], which raises when the client is not
    connected. *)
Variable execute_command : pystr -> result CommandResult.

Definition list_directory (path : pystr) : list FileInfo :=
  match execute_command (str "ls -lrth " ++ path) with
  | Raise _ => []
  | Return res =>
      if negb (Z.eqb (exit_code res) 0) then [] else parse_listing (stdout res)
  end.

Definition get_directory_summary (path : pystr) : pydict :=
  directory_summary path (list_directory path).
End Remote.

End AWSSSHClient.
Import AWSSSHClient.

(** ** Vocabulary of the statements *)

Module Shapes.

Definition nl : ascii := "010"%char.

(** [s] holds no newline. *)
Definition no_nl (s : pystr) : bool :=
  forallb (fun x => negb (Ascii.eqb x nl)) s.

(** The tokens of a line have the 9-column shape. *)
Definition wide (parts : list pystr) : bool := (9 <=? List.length parts)%nat.

(** [s] ends in K, M or G. *)
Definition suffixed (s : pystr) : bool :=
  endswith_char s "K" || endswith_char s "M" || endswith_char s "G".

(** A token: not empty and without whitespace. *)
Definition word (t : pystr) : Prop :=
  t <> [] /\ forallb (fun c => negb (isspace c)) t = true.

(** A first line and the rows below it, as one text. *)
Definition text_of (l0 : pystr) (rows : list pystr) : pystr :=
  l0 ++ List.concat (map (cons nl) rows).

(** A remote end that answers every command with [out] and exit code 0. *)
Definition answers (out : pystr) : pystr -> result CommandResult :=
  fun _ => Return {| stdout := out; stderr := []; exit_code := 0 |}.

Definition ls_command (path : pystr) : pystr := str "ls -lrth " ++ path.

(** An entry whose size token is [s]. *)
Definition entry_of_size (s : string) : FileInfo :=
  {| permissions := str "-rw-r--r--"; links := str "1"; owner := str "root";
     group := str "root"; size := str s; month := str "Jan"; day := str "1";
     time := str "00:00"; name := str "f" |}.

(** A float that is neither negative nor a NaN. *)
Definition nonneg (f : float) : bool :=
  match f with
  | S754_nan => false
  | S754_zero s | S754_infinity s | S754_finite s _ _ => negb s
  end.

(** What [total_size] and the sort keys can be: the [int] 0 or a float that
    is neither negative nor a NaN. *)
Definition plain (a : pynum) : Prop :=
  a = PyInt 0 \/ exists f, a = PyFloat f /\ nonneg f = true.

(** [_parse_size] returns on the size token of every entry. *)
Definition sizes_parse (files : list FileInfo) : Prop :=
  forall f, In f files -> exists k, _parse_size (size f) = Return k.

(** [x < y] on exact values. *)
Definition xlt (x y : xval) : bool :=
  match xcompare x y with Some Lt => true | _ => false end.

(** [x >= y] on keys: the order of a descending sort. *)
Definition key_ge {A : Type} (x y : pynum * A) : Prop :=
  py_lt (fst x) (fst y) = false.

(** The key of a decorated element is not a NaN. *)
Definition not_nan {A : Type} (x : pynum * A) : Prop := is_nan (fst x) = false.

(** A class of elements none of whose keys is below another's: elements
    that tie in the sort. *)
Definition tie_class {A : Type} (P : pynum * A -> bool) : Prop :=
  forall a b, P a = true -> P b = true -> py_lt (fst a) (fst b) = false.

End Shapes.
Import Shapes.


(** ** The session behind the client: [execute_command] and its callers *)

Module Transport.

Local Open Scope string_scope.
Local Open Scope list_scope.

Section Client.

(** The exceptions of the SSH library and of the decoding. *)
Variable TransportError : Type.

(** [str(e)]. *)
Variable str_of_error : TransportError -> pystr.

(** [self.client] once connected: what a command gives from [exec_command]
    to the decoding of both streams, or the exception one of these steps
    raises. *)
Definition session : Type := pystr -> TransportError + CommandResult.

(** [self.client]: [None] until [connect] is called, then the session,
    which raises on every command when the connection failed. *)
Variable client : option session.

(** [execute_command]. *)
Definition execute_command (command : pystr) : result CommandResult :=
  match client with
  | None => Raise Exception_not_connected
  | Some run =>
      match run command with
      | inr res => Return res
      | inl e =>
          Return {| stdout := []; stderr := str_of_error e; exit_code := -1 |}
      end
  end.

(** What a connected client makes of a command: the result of the session,
    or the result that stands for its exception. *)
Definition reply (run : session) (command : pystr) : CommandResult :=
  match run command with
  | inr res => res
  | inl e => {| stdout := []; stderr := str_of_error e; exit_code := -1 |}
  end.

(** [change_directory]. *)
Definition change_directory (path : pystr) : bool :=
  match execute_command (str "cd " ++ path ++ str " && pwd") with
  | Return res => if Z.eqb (exit_code res) 0 then true else false
  | Raise _ => false
  end.

(** The dictionary [commands] of [get_system_info], in its order. *)
Definition commands : list (string * pystr) :=
  [ ("hostname", str "hostname");
    ("uptime", str "uptime");
    ("disk_usage", str "df -h /");
    ("memory", str "free -h");
    ("cpu_info", str "lscpu | head -10");
    ("current_dir", str "pwd");
    ("user", str "whoami") ].

(** [info[key] = value] on a dictionary kept in insertion order. *)
Fixpoint dict_set (info : list (string * pystr)) (key : string) (value : pystr)
  : list (string * pystr) :=
  match info with
  | [] => [(key, value)]
  | (k, v) :: rest =>
      if String.eqb k key then (k, value) :: rest
      else (k, v) :: dict_set rest key value
  end.

(** [info[key]], [None] for a missing key. *)
Fixpoint dict_get (info : list (string * pystr)) (key : string)
  : option pystr :=
  match info with
  | [] => None
  | (k, v) :: rest => if String.eqb k key then Some v else dict_get rest key
  end.

(** What one command leaves under its key. *)
Definition info_value (res : CommandResult) : pystr :=
  if Z.eqb (exit_code res) 0 then strip (stdout res)
  else str "Error: " ++ stderr res.

(** The loop of [get_system_info] over the items that remain. *)
Fixpoint get_system_info_loop (items : list (string * pystr))
  (info : list (string * pystr)) : result (list (string * pystr)) :=
  match items with
  | [] => Return info
  | (key, command) :: rest =>
      res <- execute_command command ;;
      get_system_info_loop rest (dict_set info key (info_value res))
  end.

(** [get_system_info]. *)
Definition get_system_info : result (list (string * pystr)) :=
  get_system_info_loop commands [].

End Client.

Arguments session TransportError : clear implicits.
Arguments execute_command {TransportError} str_of_error client command.
Arguments reply {TransportError} str_of_error run command.
Arguments change_directory {TransportError} str_of_error client path.
Arguments get_system_info_loop {TransportError} str_of_error client items info.
Arguments get_system_info {TransportError} str_of_error client.

End Transport.

(** ** The configuration: [get_ssh_config] and the directories of [main] *)

Module Config.

Local Open Scope string_scope.
Local Open Scope list_scope.

(** [str.lower] on one character: the capital letters below 256. *)
Definition lower_char (c : ascii) : ascii :=
  let n := code c in
  if ((65 <=? n) && (n <=? 90)
      || (192 <=? n) && (n <=? 222) && negb (n =? 215))%N
  then ascii_of_N (n + 32) else c.

Definition lower (s : pystr) : pystr := map lower_char s.

(** [s == t] on strings. *)
Definition str_eqb (s t : pystr) : bool :=
  if list_eq_dec Ascii.ascii_dec s t then true else false.

(** The truth value of an optional string: [None] and the empty string are
    false. *)
Definition truthy (x : option pystr) : bool :=
  match x with
  | Some (_ :: _) => true
  | _ => false
  end.

(** [x or y] on optional strings. *)
Definition or_else (x y : option pystr) : option pystr :=
  if truthy x then x else y.


(** The namespace [args] of the argument parser. *)
Record Args : Type := {
  arg_host : option pystr;
  arg_user : option pystr;
  arg_key : option pystr;
  arg_port : option Z;
  arg_verbose : bool
}.

(** The [Config] object. *)
Record Config : Type := {
  host : pystr;
  user : pystr;
  key : pystr;
  port : Z
}.

(** How [get_ssh_config] ends. *)
Inductive outcome (A : Type) : Type :=
  | Done (a : A)
  | SysExit (code : Z)            (* sys.exit(code) *)
  | ValueError_int (s : pystr)    (* int(s) *)
  | EOFError.                     (* input() at the end of the input *)
Arguments Done {A} a.
Arguments SysExit {A} code.
Arguments ValueError_int {A} s.
Arguments EOFError {A}.

Definition obind {A B : Type} (o : outcome A) (k : A -> outcome B)
  : outcome B :=
  match o with
  | Done a => k a
  | SysExit code => SysExit code
  | ValueError_int s => ValueError_int s
  | EOFError => EOFError
  end.

(** [input(prompt)]: the next line of the standard input, the lines still to
    read being the state. *)
Definition input (stdin : list pystr) : outcome (pystr * list pystr) :=
  match stdin with
  | [] => EOFError
  | line :: rest => Done (line, rest)
  end.

Definition common_keys : list pystr :=
  [ str "~/.ssh/id_rsa"; str "~/.ssh/id_ed25519"; str "~/.ssh/aws-key-2025";
    str "~/.ssh/id_ecdsa" ].

Section Environment.

(** [os.getenv(name)], [None] for a variable that is not set. *)
Variable getenv : string -> option pystr.

(** [int(s)], [None] when it raises ValueError. *)
Variable int_of_str : pystr -> option Z.

(** [str(Path(p).expanduser())] and [Path.exists] on the result. *)
Variable expanduser : pystr -> pystr.
Variable path_exists : pystr -> bool.

(** [os.getenv(name, default)]. *)
Definition getenv_default (name : string) (default : pystr) : pystr :=
  match getenv name with
  | Some v => v
  | None => default
  end.

(** The loop over [common_keys]: the first path that exists. *)
Fixpoint find_key (paths : list pystr) : option pystr :=
  match paths with
  | [] => None
  | key_path :: rest =>
      let expanded_path := expanduser key_path in
      if path_exists expanded_path then Some expanded_path else find_key rest
  end.

(** One prompt whose answer is required: [input(...).strip()], and
    [sys.exit(1)] when nothing is left of the answer. *)
Definition ask (stdin : list pystr) : outcome (pystr * list pystr) :=
  obind (input stdin) (fun '(line, rest) =>
    match strip line with
    | [] => SysExit 1
    | answer => Done (answer, rest)
    end).

(** [if not host:] with its prompt. *)
Definition prompt_host (host : option pystr) (stdin : list pystr)
  : outcome (pystr * list pystr) :=
  match host with
  | Some (c :: h) => Done (c :: h, stdin)
  | _ => ask stdin
  end.

(** [if not key:] with its two prompts. *)
Definition prompt_key (key : option pystr) (stdin : list pystr)
  : outcome (pystr * list pystr) :=
  match key with
  | Some (c :: k) => Done (c :: k, stdin)
  | _ =>
      match find_key common_keys with
      | Some (c :: found_key) =>
          obind (input stdin) (fun '(line, rest) =>
            let use_found := lower (strip line) in
            if existsb (str_eqb use_found) [ []; str "y"; str "yes" ]
            then Done (c :: found_key, rest)
            else ask rest)
      | _ => ask stdin
      end
  end.

(** [get_ssh_config] after [parser.parse_args()]: the configuration and the
    lines of input left unread. *)
Definition get_ssh_config (args : Args) (stdin : list pystr)
  : outcome (Config * list pystr) :=
  let host := or_else (arg_host args) (getenv "AWS_SSH_HOST") in
  let user :=
    match arg_user args with
    | Some (c :: u) => c :: u
    | _ => getenv_default "AWS_SSH_USER" (str "forge")
    end in
  let key := or_else (arg_key args) (getenv "AWS_SSH_KEY") in
  let port_env := getenv_default "AWS_SSH_PORT" (str "22") in
  obind
    match arg_port args with
    | Some 0 | None =>
        match int_of_str port_env with
        | Some p => Done p
        | None => ValueError_int port_env
        end
    | Some p => Done p
    end
    (fun port =>
       obind (prompt_host host stdin) (fun '(host, stdin) =>
         obind (prompt_key key stdin) (fun '(key, stdin) =>
           Done ({| host := host; user := user; key := key; port := port |},
                 stdin)))).

(** [directories_to_check] in [main], for the user of the configuration. *)
Definition directories_to_check (user : pystr) : list pystr :=
  match getenv_default "AWS_SSH_DIRECTORIES" [] with
  | [] => [ str "/home/" ++ user; str "/var/log"; str "/opt" ]
  | directories_env =>
      map strip
        (filter (fun dir => match strip dir with [] => false | _ => true end)
           (split_on "," directories_env))
  end.

End Environment.

(** [int] on a decimal numeral, for the inputs below the interpreter's limit
    on the number of digits: whitespace around, a sign, digits with single
    underscores between them. *)
Definition int_space (c : ascii) : bool :=
  let n := code c in
  ((9 <=? n) && (n <=? 13) || (n =? 32) || (n =? 133) || (n =? 160))%N.

Fixpoint int_body (after_digit : bool) (acc : Z) (s : pystr) : option Z :=
  match s with
  | [] => if after_digit then Some acc else None
  | c :: s' =>
      if is_ascii_digit c
      then int_body true (10 * acc + (Z.of_N (code c) - 48)) s'
      else if Ascii.eqb c "_" && after_digit then int_body false acc s'
      else None
  end.

Fixpoint int_lstrip (s : pystr) : pystr :=
  match s with
  | [] => []
  | c :: s' => if int_space c then int_lstrip s' else s
  end.

Definition int_of_decimal (s : pystr) : option Z :=
  match int_lstrip (rev (int_lstrip (rev s))) with
  | c :: t =>
      if Ascii.eqb c "-" then option_map Z.opp (int_body false 0 t)
      else if Ascii.eqb c "+" then int_body false 0 t
      else int_body false 0 (c :: t)
  | [] => None
  end.

End Config.


(** ** Integers as floats *)

Module Exact.

(** [n] followed by [j] zero bits. *)
Definition shl (n : positive) (j : nat) : positive := Nat.iter j xO n.

(** The number of bits of [n]. *)
Definition bit_length (n : positive) : Z := Zpos (digits2_pos n).

(** The float of a positive integer below 2 ^ 53: its bits, moved up to
    fill the 53 bits of the mantissa. *)
Definition canon (n : positive) : float :=
  S754_finite false (shl n (Z.to_nat (53 - bit_length n))) (bit_length n - 53).

(** The float of an integer from 0 to 2 ^ 53 - 1. *)
Definition exact_float (z : Z) : float :=
  match z with
  | Zpos n => canon n
  | _ => S754_zero false
  end.

(** A size token made of ASCII digits only. *)
Definition digit_token (s : pystr) : Prop :=
  s <> [] /\ forallb is_ascii_digit s = true.

(** The sum of the size tokens of a listing, read as integers. *)
Definition sizes_sum (files : list FileInfo) : Z :=
  fold_right (fun f acc => digits_value (size f) + acc) 0 files.

End Exact.

(** * Facts about the string operations *)

Module PyStrFacts.

Lemma endswith_char_In (s : pystr) (c : ascii) :
  endswith_char s c = true -> In c s.
Proof.
  induction s as [|x s IH]; simpl; [discriminate|].
  destruct s as [|y s'].
  - intros H. apply Ascii.eqb_eq in H. now left.
  - intros H. right. now apply IH.
Qed.

Lemma endswith_char_snoc (s : pystr) (c c' : ascii) :
  endswith_char (s ++ [c]) c' = Ascii.eqb c c'.
Proof.
  induction s as [|x s IH]; [reflexivity|].
  simpl. destruct (s ++ [c]) eqn:E; [now destruct s|exact IH].
Qed.

Lemma drop_last_snoc (s : pystr) (c : ascii) : drop_last (s ++ [c]) = s.
Proof. apply removelast_last. Qed.

Lemma isdigit_forall (s : pystr) :
  isdigit s = true -> forall c, In c s -> isdigit_char c = true.
Proof.
  destruct s as [|x s]; [discriminate|].
  unfold isdigit. intros H. now apply forallb_forall.
Qed.

Lemma remove_char_In (c x : ascii) (s : pystr) :
  In x s -> x <> c -> In x (remove_char c s).
Proof.
  intros Hin Hne. apply filter_In. split; [assumption|].
  apply negb_true_iff. now apply Ascii.eqb_neq.
Qed.

(** A character that [x] cannot pass for survives no digit test. *)
Lemma isdigit_remove_char_In (c x : ascii) (s : pystr) :
  In x s -> x <> c -> isdigit_char x = false ->
  isdigit (remove_char c s) = false.
Proof.
  intros Hin Hne Hx.
  destruct (isdigit (remove_char c s)) eqn:E; [|reflexivity].
  pose proof (isdigit_forall _ E x (remove_char_In c x s Hin Hne)) as H.
  congruence.
Qed.

Lemma remove_char_id (c : ascii) (s : pystr) :
  ~ In c s -> remove_char c s = s.
Proof.
  induction s as [|x s IH]; [reflexivity|].
  intros H. simpl.
  destruct (Ascii.eqb x c) eqn:E.
  - apply Ascii.eqb_eq in E. subst. exfalso. apply H. now left.
  - simpl. f_equal. apply IH. intros Hin. apply H. now right.
Qed.

(** ** Whitespace *)

Lemma rstrip_nil (s : pystr) : rstrip s = [] <-> forallb isspace s = true.
Proof.
  induction s as [|c s IH]; simpl; [tauto|].
  destruct (rstrip s) eqn:E.
  - destruct (isspace c); simpl.
    + split; [intros _; now apply IH|reflexivity].
    + split; discriminate.
  - split; [discriminate|].
    intros H. apply andb_true_iff in H. destruct H as [_ H].
    apply IH in H. discriminate.
Qed.

Lemma rstrip_cons_nonspace (c : ascii) (s : pystr) :
  isspace c = false -> rstrip (c :: s) = c :: rstrip s.
Proof. intros H. simpl. rewrite H. now destruct (rstrip s). Qed.

Lemma rstrip_cons_nonnil (c : ascii) (s : pystr) :
  rstrip s <> [] -> rstrip (c :: s) = c :: rstrip s.
Proof. intros H. simpl. destruct (rstrip s); [contradiction|reflexivity]. Qed.

Lemma rstrip_app_nonnil (a b : pystr) :
  rstrip b <> [] -> rstrip (a ++ b) = a ++ rstrip b.
Proof.
  intros H. induction a as [|c a IH]; [reflexivity|].
  simpl app. rewrite rstrip_cons_nonnil; [now rewrite IH|].
  rewrite IH. now destruct a.
Qed.

Lemma rstrip_app_space (s w : pystr) :
  forallb isspace w = true -> rstrip (s ++ w) = rstrip s.
Proof.
  intros H. induction s as [|c s IH].
  - simpl. now apply rstrip_nil.
  - simpl. now rewrite IH.
Qed.

Lemma split_space (s : pystr) : forallb isspace s = true -> split s = [].
Proof.
  induction s as [|c s IH]; [reflexivity|].
  simpl. intros H. apply andb_true_iff in H. destruct H as [Hc Hs].
  rewrite Hc. now apply IH.
Qed.

(** A line that strips to nothing has no token: the test [if line.strip()]
    drops nothing that the token count would keep. *)
Lemma strip_nil_split (s : pystr) : strip s = [] -> split s = [].
Proof.
  unfold strip. intros H. apply rstrip_nil in H.
  induction s as [|c s IH]; [reflexivity|].
  simpl in *. destruct (isspace c) eqn:Hc.
  - now apply IH.
  - simpl in H. rewrite Hc in H. discriminate.
Qed.

Lemma rstrip_head (c : ascii) (s : pystr) :
  rstrip (c :: s) = [] \/ exists r, rstrip (c :: s) = c :: r.
Proof.
  simpl. destruct (rstrip s).
  - destruct (isspace c); [now left|right; now exists []].
  - right. eauto.
Qed.

Lemma split_rstrip (s : pystr) : split (rstrip s) = split s.
Proof.
  induction s as [|c s IH]; [reflexivity|].
  destruct (rstrip s) as [|x r] eqn:E.
  - assert (Hs : forallb isspace s = true) by now apply rstrip_nil.
    simpl rstrip. rewrite E.
    simpl. destruct (isspace c) eqn:Hc.
    + symmetry. now apply split_space.
    + simpl. rewrite Hc. destruct s as [|c' s']; [reflexivity|].
      simpl in Hs. apply andb_true_iff in Hs. destruct Hs as [Hc' Hs'].
      rewrite Hc'. f_equal. symmetry. apply split_space.
      simpl. now rewrite Hc', Hs'.
  - rewrite rstrip_cons_nonnil by (rewrite E; discriminate).
    rewrite E.
    destruct s as [|c' s']; [discriminate|].
    destruct (rstrip_head c' s') as [H|[r' H]]; [congruence|].
    assert (x = c') by congruence. subst x.
    change (split (c :: c' :: r)) with
      (if isspace c then split (c' :: r)
       else if isspace c' then [c] :: split (c' :: r)
       else match split (c' :: r) with
            | [] => [[c]]
            | tok :: toks => (c :: tok) :: toks
            end).
    change (split (c :: c' :: s')) with
      (if isspace c then split (c' :: s')
       else if isspace c' then [c] :: split (c' :: s')
       else match split (c' :: s') with
            | [] => [[c]]
            | tok :: toks => (c :: tok) :: toks
            end).
    now rewrite IH.
Qed.

End PyStrFacts.

(** * The listing parser *)

Module ListingFacts.
Import PyStrFacts.

Lemma split_on_no_nl (a : pystr) : no_nl a = true -> split_on nl a = [a].
Proof.
  induction a as [|c a IH]; [reflexivity|].
  simpl. intros H. apply andb_true_iff in H. destruct H as [Hc Ha].
  apply negb_true_iff in Hc. rewrite Hc, (IH Ha). reflexivity.
Qed.

Lemma split_on_app_nl (a b : pystr) :
  no_nl a = true -> split_on nl (a ++ nl :: b) = a :: split_on nl b.
Proof.
  induction a as [|c a IH]; intros H.
  - reflexivity.
  - simpl in H. apply andb_true_iff in H. destruct H as [Hc Ha].
    apply negb_true_iff in Hc.
    simpl. rewrite Hc, (IH Ha). reflexivity.
Qed.

Lemma no_nl_rstrip (s : pystr) : no_nl s = true -> no_nl (rstrip s) = true.
Proof.
  induction s as [|c s IH]; [reflexivity|].
  simpl. intros H. apply andb_true_iff in H. destruct H as [Hc Hs].
  specialize (IH Hs). destruct (rstrip s) as [|a r] eqn:E.
  - destruct (isspace c); [reflexivity|]. simpl. now rewrite Hc.
  - change (no_nl (c :: a :: r)) with
      (negb (Ascii.eqb c nl) && no_nl (a :: r)).
    now rewrite Hc, IH.
Qed.

Lemma rstrip_app_l_nonnil (a b : pystr) :
  rstrip a <> [] -> rstrip (a ++ b) <> [].
Proof.
  intros H E. apply H. apply rstrip_nil. apply rstrip_nil in E.
  rewrite forallb_app in E. now apply andb_true_iff in E.
Qed.

Lemma split_rstrip_nonnil (s : pystr) : split s <> [] -> rstrip s <> [].
Proof.
  intros H E. apply H. apply split_space. now apply rstrip_nil.
Qed.

Lemma startswith_rstrip (p s : pystr) :
  forallb (fun c => negb (isspace c)) p = true ->
  startswith s p = true -> startswith (rstrip s) p = true.
Proof.
  revert s. induction p as [|a p IH]; intros s Hp H.
  - now destruct (rstrip s).
  - destruct s as [|b s]; [discriminate|].
    simpl in Hp, H. apply andb_true_iff in Hp. destruct Hp as [Ha Hp].
    apply andb_true_iff in H. destruct H as [Hab Hs].
    apply Ascii.eqb_eq in Hab. subst b. apply negb_true_iff in Ha.
    rewrite (rstrip_cons_nonspace a s Ha). simpl.
    rewrite Ascii.eqb_refl. simpl. now apply IH.
Qed.

Lemma startswith_lstrip (a : ascii) (p s t : pystr) :
  isspace a = false -> startswith s (a :: p) = true ->
  lstrip (s ++ t) = s ++ t.
Proof.
  intros Ha H. destruct s as [|b s]; [discriminate|].
  simpl in H. apply andb_true_iff in H. destruct H as [Hab _].
  apply Ascii.eqb_eq in Hab. subst b. simpl. now rewrite Ha.
Qed.

(** The lines of a right-stripped text: only the last line changes, and only
    by losing its trailing whitespace. *)
Lemma lines_of_text (w : pystr) (rows : list pystr) :
  forallb isspace w = true ->
  Forall (fun r => no_nl r = true /\ split r <> []) rows ->
  forall l, no_nl l = true ->
  exists l' rest,
    split_on nl (rstrip (text_of l rows ++ w)) = l' :: rest
    /\ (l' = l \/ l' = rstrip l)
    /\ map split rest = map split rows.
Proof.
  intros Hw. induction rows as [|r rs IH]; intros Hrows l Hl.
  - exists (rstrip l), []. unfold text_of. simpl. rewrite app_nil_r.
    rewrite (rstrip_app_space l w Hw).
    rewrite (split_on_no_nl _ (no_nl_rstrip l Hl)). auto.
  - inversion Hrows as [|? ? [Hr Hne] Hrs]; subst.
    destruct (IH Hrs r Hr) as (r' & rest & E & Hr' & Hrest).
    exists l, (r' :: rest).
    assert (Hnn : rstrip (text_of r rs ++ w) <> []).
    { unfold text_of. rewrite <- app_assoc.
      apply rstrip_app_l_nonnil. now apply split_rstrip_nonnil. }
    replace (text_of l (r :: rs) ++ w)
      with (l ++ nl :: (text_of r rs ++ w))
      by (unfold text_of; simpl; rewrite <- !app_assoc; simpl;
          now rewrite <- ?app_assoc).
    rewrite (rstrip_app_nonnil l (nl :: _)).
    + rewrite (rstrip_cons_nonnil nl _ Hnn).
      rewrite (split_on_app_nl l _ Hl), E.
      split; [reflexivity|]. split; [now left|].
      simpl. f_equal; [|exact Hrest].
      destruct Hr' as [->| ->]; [reflexivity|apply split_rstrip].
    + rewrite (rstrip_cons_nonnil nl _ Hnn). discriminate.
Qed.

(** The loop of [list_directory] keeps, in order, the lines with at least
    9 tokens. *)
Lemma fold_list_directory_line (lines : list pystr) (files : list FileInfo) :
  fold_left list_directory_line lines files
  = files ++ map file_info (filter wide (map split lines)).
Proof.
  revert files. induction lines as [|l lines IH]; intros files.
  - simpl. now rewrite app_nil_r.
  - simpl fold_left. rewrite IH. unfold list_directory_line.
    simpl map. simpl filter. unfold wide at 2.
    destruct (strip l) eqn:E.
    + rewrite (strip_nil_split l E). reflexivity.
    + destruct (9 <=? List.length (split l))%nat; [|reflexivity].
      simpl. now rewrite <- app_assoc.
Qed.

Lemma parse_listing_spec (out : pystr) :
  parse_listing out
  = map file_info
      (filter wide (map split (skip_total (split_on nl (strip out))))).
Proof. unfold parse_listing. now rewrite fold_list_directory_line. Qed.

(** A text made of a first line that starts with "total", rows of at least 9
    tokens and trailing whitespace parses to the entries of the rows. *)
Lemma parse_listing_total_rows (l0 : pystr) (rows : list pystr) (w : pystr) :
  startswith l0 (str "total") = true ->
  no_nl l0 = true ->
  Forall (fun r => no_nl r = true /\ wide (split r) = true) rows ->
  forallb isspace w = true ->
  parse_listing (text_of l0 rows ++ w)
  = map (fun r => file_info (split r)) rows.
Proof.
  intros Htot Hl0 Hrows Hw. rewrite parse_listing_spec.
  assert (Hls : lstrip (text_of l0 rows ++ w) = text_of l0 rows ++ w).
  { unfold text_of. rewrite <- app_assoc.
    exact (startswith_lstrip "t"%char (str "otal") l0 _ eq_refl Htot). }
  unfold strip. rewrite Hls.
  assert (Hrows' : Forall (fun r => no_nl r = true /\ split r <> []) rows).
  { eapply Forall_impl; [|exact Hrows]. intros r [Hr Hwide].
    split; [exact Hr|]. intros E. rewrite E in Hwide. discriminate. }
  destruct (lines_of_text w rows Hw Hrows' l0 Hl0)
    as (l' & rest & -> & Hl' & Hrest).
  assert (Hskip : skip_total (l' :: rest) = rest).
  { unfold skip_total. destruct Hl' as [->| ->]; [now rewrite Htot|].
    now rewrite (startswith_rstrip (str "total") l0 eq_refl Htot). }
  rewrite Hskip, Hrest. clear - Hrows.
  induction Hrows as [|r rs [_ Hr] _ IH]; [reflexivity|].
  simpl. rewrite Hr. simpl. now rewrite IH.
Qed.

(** Whitespace in front of the text is gone before the lines are cut. *)
Lemma lstrip_app_space (w s : pystr) :
  forallb isspace w = true -> lstrip (w ++ s) = lstrip s.
Proof.
  induction w as [|c w IH]; [reflexivity|].
  cbn [forallb app lstrip]. intros H. apply andb_true_iff in H.
  destruct H as [Hc Hw]. rewrite Hc. now apply IH.
Qed.

Lemma parse_listing_leading_space (w0 out : pystr) :
  forallb isspace w0 = true -> parse_listing (w0 ++ out) = parse_listing out.
Proof.
  intros Hw. unfold parse_listing, strip.
  now rewrite (lstrip_app_space w0 out Hw).
Qed.

(** ** Rows written from their tokens *)

Lemma split_word_app (t s : pystr) :
  word t ->
  match s with [] => True | c :: _ => isspace c = true end ->
  split (t ++ s) = t :: split s.
Proof.
  intros [Hne Ht] Hs. induction t as [|c t IH]; [contradiction|].
  simpl in Ht. apply andb_true_iff in Ht. destruct Ht as [Hc Ht].
  apply negb_true_iff in Hc.
  destruct t as [|c2 t'].
  - simpl. rewrite Hc. destruct s as [|c' s']; [reflexivity|].
    now rewrite Hs.
  - assert (Hc2 : isspace c2 = false).
    { simpl in Ht. apply andb_true_iff in Ht. destruct Ht as [H _].
      now apply negb_true_iff. }
    change (split ((c :: c2 :: t') ++ s)) with
      (if isspace c then split ((c2 :: t') ++ s)
       else if isspace c2 then [c] :: split ((c2 :: t') ++ s)
       else match split ((c2 :: t') ++ s) with
            | [] => [[c]]
            | tok :: toks => (c :: tok) :: toks
            end).
    rewrite Hc, Hc2, IH; [reflexivity|discriminate|exact Ht].
Qed.

(** Splitting gives back the tokens a row was joined from. *)
Lemma split_join (toks : list pystr) :
  Forall word toks -> split (join (str " ") toks) = toks.
Proof.
  induction 1 as [|t ts Ht Hts IH]; [reflexivity|].
  destruct ts as [|t2 ts'].
  - simpl. rewrite <- (app_nil_r t) at 1. now rewrite split_word_app.
  - change (join (str " ") (t :: t2 :: ts'))
      with (t ++ " "%char :: join (str " ") (t2 :: ts')).
    rewrite split_word_app; [|exact Ht|reflexivity].
    f_equal. exact IH.
Qed.

Lemma no_nl_join (toks : list pystr) :
  Forall word toks -> no_nl (join (str " ") toks) = true.
Proof.
  assert (Hw : forall t, word t -> no_nl t = true).
  { intros t [_ Ht]. unfold no_nl. apply forallb_forall. intros c Hc.
    pose proof (proj1 (forallb_forall _ _) Ht c Hc) as H.
    destruct (Ascii.eqb_spec c nl) as [->|]; [discriminate|reflexivity]. }
  induction 1 as [|t ts Ht Hts IH]; [reflexivity|].
  destruct ts as [|t2 ts']; [now apply Hw|].
  change (join (str " ") (t :: t2 :: ts'))
    with (t ++ " "%char :: join (str " ") (t2 :: ts')).
  unfold no_nl in *. rewrite forallb_app, (Hw t Ht). cbn [forallb].
  rewrite IH. reflexivity.
Qed.

(** The round trip on well-formed input: a "total" line followed by rows
    written from at least 9 words each, a single space between two words,
    parses to the entries of those words. *)
Lemma parse_listing_round_trip (l0 : pystr) (table : list (list pystr)) :
  startswith l0 (str "total") = true ->
  no_nl l0 = true ->
  Forall (fun toks => Forall word toks /\ wide toks = true) table ->
  parse_listing (text_of l0 (map (join (str " ")) table) ++ [nl])
  = map file_info table.
Proof.
  intros Htot Hl0 Htab.
  rewrite (parse_listing_total_rows l0 _ [nl] Htot Hl0); [|.. |reflexivity].
  - rewrite map_map. apply map_ext_in. intros toks Hin.
    rewrite Forall_forall in Htab. destruct (Htab toks Hin) as [Hw _].
    now rewrite split_join.
  - rewrite Forall_forall in *. intros r Hr.
    apply in_map_iff in Hr. destruct Hr as (toks & <- & Hin).
    destruct (Htab toks Hin) as [Hw Hwide].
    split; [now apply no_nl_join|]. now rewrite split_join.
Qed.

End ListingFacts.

(** * Facts about the numbers *)

Module PyNumFacts.

(** ** Rounding never turns a non-negative value into a NaN *)

Lemma shr_1_nonneg mrs : 0 <= shr_m mrs -> 0 <= shr_m (shr_1 mrs).
Proof.
  destruct mrs as [m r s]. simpl.
  destruct m as [|p|p]; [|destruct p|destruct p]; simpl; lia.
Qed.

Lemma iter_pos_invariant {A : Type} (P : A -> Prop) (f : A -> A) :
  (forall x, P x -> P (f x)) ->
  forall n x, P x -> P (iter_pos f n x).
Proof.
  intros Hf. induction n as [n IH|n IH|]; intros x Hx; simpl; auto.
Qed.

Lemma shr_nonneg mrs e n :
  0 <= shr_m mrs -> 0 <= shr_m (fst (shr mrs e n)).
Proof.
  intros H. destruct n; simpl; try assumption.
  apply (iter_pos_invariant (fun r => 0 <= shr_m r)); [|assumption].
  exact shr_1_nonneg.
Qed.

Lemma shr_fexp_nonneg m e l :
  0 <= m -> 0 <= shr_m (fst (shr_fexp prec emax m e l)).
Proof.
  intros H. unfold shr_fexp. apply shr_nonneg.
  destruct l as [|[]]; exact H.
Qed.

Lemma round_nearest_even_nonneg m l : 0 <= m -> 0 <= round_nearest_even m l.
Proof.
  intros H. unfold round_nearest_even.
  destruct l as [|[]]; try destruct (Z.even m); lia.
Qed.

Lemma binary_round_aux_nonneg mx ex lx :
  0 <= mx -> nonneg (binary_round_aux prec emax false mx ex lx) = true.
Proof.
  intros H. unfold binary_round_aux.
  pose proof (shr_fexp_nonneg mx ex lx H) as H1.
  destruct (shr_fexp prec emax mx ex lx) as [mrs' e']. simpl in H1.
  pose proof (shr_fexp_nonneg
                (round_nearest_even (shr_m mrs') (loc_of_shr_record mrs'))
                e' loc_Exact (round_nearest_even_nonneg _ _ H1)) as H2.
  destruct (shr_fexp prec emax _ e' loc_Exact) as [mrs'' e'']. simpl in H2.
  destruct (shr_m mrs'') as [|m|m]; [reflexivity| |lia].
  now destruct (e'' <=? emax - prec).
Qed.

Lemma binary_round_nonneg m e :
  nonneg (binary_round prec emax false m e) = true.
Proof.
  unfold binary_round.
  destruct (shl_align m e _) as [mz ez].
  apply binary_round_aux_nonneg. lia.
Qed.

Lemma float_of_ratio_nonneg n d : nonneg (float_of_ratio n d) = true.
Proof.
  unfold float_of_ratio, SFdiv_core_binary.
  set (m' := match _ with Zpos _ => _ | Z0 => _ | Zneg _ => _ end).
  assert (Hm : 0 <= m').
  { subst m'. destruct (_ - _ - _); try lia. apply Z.shiftl_nonneg. lia. }
  pose proof (Z_div_mod m' (Zpos d) eq_refl) as Hdiv.
  destruct (Z.div_eucl m' (Zpos d)) as [q r].
  apply binary_round_aux_nonneg. nia.
Qed.

Lemma py_float_nonneg s f : py_float s = Return f -> nonneg f = true.
Proof.
  unfold py_float. destruct (parse_decimal s) as [[ds k]|]; [|discriminate].
  destruct (digits_value ds); intros H; inversion H; subst;
    try reflexivity.
  apply float_of_ratio_nonneg.
Qed.

Lemma fadd_nonneg x y :
  nonneg x = true -> nonneg y = true -> nonneg (fadd x y) = true.
Proof.
  destruct x as [sx|sx| |sx mx ex]; destruct y as [sy|sy| |sy my ey];
    simpl; try discriminate; intros Hx Hy;
    apply negb_true_iff in Hx; apply negb_true_iff in Hy; subst;
    try reflexivity.
  unfold fadd, SFadd, binary_normalize. simpl cond_Zopp.
  destruct (shl_align mx ex (Z.min ex ey)) as [a ea].
  destruct (shl_align my ey (Z.min ex ey)) as [b eb].
  simpl fst. simpl Z.add. apply binary_round_nonneg.
Qed.

(** Multiplying by the [int] 1024. *)
Lemma fmul_1024_nonneg x :
  nonneg x = true -> nonneg (fmul x (float_of_int 1024)) = true.
Proof.
  destruct x as [sx|sx| |sx mx ex]; simpl; try discriminate; intros Hx;
    apply negb_true_iff in Hx; subst; try reflexivity.
  change (float_of_int 1024) with (S754_finite false 4503599627370496 (-42)).
  unfold fmul, SFmul. simpl xorb. apply binary_round_aux_nonneg. lia.
Qed.

Lemma plain_float f : nonneg f = true -> plain (PyFloat f).
Proof. intros H. right. eauto. Qed.

Lemma py_add_plain t f :
  plain t -> nonneg f = true -> plain (py_add t (PyFloat f)).
Proof.
  intros [->|[g [-> Hg]]] Hf; apply plain_float.
  - change (to_float (PyInt 0)) with (S754_zero false).
    now apply (fadd_nonneg (S754_zero false)).
  - now apply fadd_nonneg.
Qed.

Lemma plain_not_nan a : plain a -> is_nan a = false.
Proof.
  intros [->|[f [-> Hf]]]; [reflexivity|].
  now destruct f as [s|s| |s m e].
Qed.

(** ** Rounding to one decimal *)

(** [round_half_even n d] is within one half of [n / d]. *)
Lemma round_half_even_near (n d : Z) :
  0 <= n -> 0 < d ->
  2 * Z.abs (n - d * round_half_even n d) <= d.
Proof.
  intros Hn Hd. unfold round_half_even.
  pose proof (Z.div_mod n d ltac:(lia)) as E.
  pose proof (Z.mod_pos_bound n d Hd) as B.
  destruct (2 * (n mod d) ?= d) eqn:C.
  - apply Z.compare_eq in C. destruct (Z.even (n / d)); nia.
  - apply -> Z.compare_lt_iff in C. nia.
  - apply -> Z.compare_gt_iff in C. nia.
Qed.

(** On a tie the result is even. *)
Lemma round_half_even_tie (n d : Z) :
  2 * (n mod d) = d -> Z.even (round_half_even n d) = true.
Proof.
  intros H. unfold round_half_even. rewrite H, Z.compare_refl.
  destruct (Z.even (n / d)) eqn:E; [exact E|].
  rewrite Z.even_add, E. reflexivity.
Qed.

(** ** The order on numbers *)

Lemma xlt_asym x y : xlt x y = true -> xlt y x = false.
Proof.
  unfold xlt.
  destruct x as [|[]|p]; destruct y as [|[]|q]; cbn [xcompare];
    try discriminate; try reflexivity.
  rewrite <- (Qcompare_antisym p q). now destruct (p ?= q)%Q.
Qed.

Lemma xlt_false_trans x y z :
  x <> XNan -> y <> XNan -> z <> XNan ->
  xlt x y = false -> xlt y z = false -> xlt x z = false.
Proof.
  unfold xlt.
  destruct x as [|[]|p]; destruct y as [|[]|q]; destruct z as [|[]|r];
    cbn [xcompare]; try congruence; intros _ _ _ H1 H2.
  destruct (p ?= r)%Q eqn:E; try reflexivity.
  pose proof (proj2 (Qlt_alt p r) E) as Hpr.
  assert (Hqp : (q <= p)%Q).
  { apply Qnot_lt_le. intros C.
    rewrite (proj1 (Qlt_alt p q) C) in H1. discriminate. }
  assert (Hrq : (r <= q)%Q).
  { apply Qnot_lt_le. intros C.
    rewrite (proj1 (Qlt_alt q r) C) in H2. discriminate. }
  exfalso. apply (Qle_not_lt r p); [|exact Hpr].
  now apply Qle_trans with q.
Qed.

Lemma py_lt_asym a b : py_lt a b = true -> py_lt b a = false.
Proof. apply xlt_asym. Qed.

Lemma is_nan_value a : is_nan a = false -> value a <> XNan.
Proof. unfold is_nan. now destruct (value a). Qed.

Lemma py_lt_false_trans a b c :
  is_nan a = false -> is_nan b = false -> is_nan c = false ->
  py_lt a b = false -> py_lt b c = false -> py_lt a c = false.
Proof.
  intros Ha Hb Hc. apply xlt_false_trans; now apply is_nan_value.
Qed.

(** Two numbers equal to a third are not below one another. *)
Lemma py_eq_not_lt a b k :
  py_eq a k = true -> py_eq b k = true -> py_lt a b = false.
Proof.
  unfold py_eq, py_lt, py_compare.
  destruct (value a) as [|[]|p]; destruct (value b) as [|[]|q];
    destruct (value k) as [|[]|r]; cbn [xcompare]; try discriminate;
    try reflexivity.
  destruct (p ?= r)%Q eqn:E1; try discriminate.
  destruct (q ?= r)%Q eqn:E2; try discriminate.
  intros _ _.
  pose proof (proj2 (Qeq_alt p r) E1) as F1.
  pose proof (proj2 (Qeq_alt q r) E2) as F2.
  assert (E : (p == q)%Q) by (rewrite F1, F2; reflexivity).
  now rewrite (proj1 (Qeq_alt p q) E).
Qed.

End PyNumFacts.

(** * Facts about the size tokens *)

Module SizeFacts.
Import PyStrFacts PyNumFacts.

Lemma plain_token_no_suffix (s : pystr) (c : ascii) :
  isdigit (remove_char "." s) = true ->
    isdigit_char c = false -> c <> "."%char ->
  endswith_char s c = false.
Proof.
  intros H Hc Hne. destruct (endswith_char s c) eqn:E; [|reflexivity].
  rewrite (isdigit_remove_char_In "." c s (endswith_char_In s c E) Hne Hc) in H.
  discriminate.
Qed.

Lemma plain_token_remove (s : pystr) (c : ascii) :
  isdigit (remove_char "." s) = true ->
    isdigit_char c = false ->
  remove_char c (remove_char "." s) = remove_char "." s.
Proof.
  intros H Hc. apply remove_char_id. intros Hin.
  rewrite (isdigit_forall _ H c Hin) in Hc. discriminate.
Qed.

(** On a token of digits and points, [_parse_size] and the loop of the
    total both call [float] on the whole token. *)
Lemma parse_size_plain_token (s : pystr) :
  isdigit (remove_char "." s) = true ->
    _parse_size s = (f <- py_float s ;; Return (PyFloat f)).
Proof.
  intros H. unfold _parse_size.
  rewrite (plain_token_remove s "K" H eq_refl).
  rewrite (plain_token_remove s "M" H eq_refl).
  rewrite (plain_token_remove s "G" H eq_refl).
  rewrite H.
  rewrite (plain_token_no_suffix s "K" H eq_refl) by discriminate.
  rewrite (plain_token_no_suffix s "M" H eq_refl) by discriminate.
  rewrite (plain_token_no_suffix s "G" H eq_refl) by discriminate.
  destruct s; [discriminate|reflexivity].
Qed.

Lemma add_size_plain_token (t : pynum) (s : pystr) :
  isdigit (remove_char "." s) = true ->
  add_size t s = (f <- py_float s ;; Return (py_add t (PyFloat f))).
Proof.
  intros H. unfold add_size. rewrite H.
  rewrite (plain_token_no_suffix s "K" H eq_refl) by discriminate.
  rewrite (plain_token_no_suffix s "M" H eq_refl) by discriminate.
  rewrite (plain_token_no_suffix s "G" H eq_refl) by discriminate.
  reflexivity.
Qed.

Lemma add_size_other (t : pynum) (s : pystr) :
  isdigit (remove_char "." s) = false -> add_size t s = Return t.
Proof. intros H. unfold add_size. now rewrite H. Qed.

(** ** What reaches [float] *)

Lemma drop_last_In (s : pystr) (c : ascii) : In c (drop_last s) -> In c s.
Proof.
  unfold drop_last. induction s as [|x s IH]; [intros []|].
  simpl. destruct s as [|y s']; [intros []|].
  intros [<-|H]; [now left|right; now apply IH].
Qed.

(** Under the first test of [_parse_size], the token and the token without
    its last character hold only digits of [str.isdigit], points and the
    letters K, M, G. *)
Lemma parse_size_float_argument (s : pystr) :
  isdigit (remove_char "G" (remove_char "M" (remove_char "K"
             (remove_char "." s)))) = true ->
  forall c, In c s \/ In c (drop_last s) ->
  isdigit_char c = true \/ In c [ "."; "K"; "M"; "G" ]%char.
Proof.
  intros H c Hc.
  assert (Hin : In c s) by (destruct Hc; [assumption|now apply drop_last_In]).
  destruct (Ascii.eqb_spec c ".") as [->|H1]; [right; simpl; tauto|].
  destruct (Ascii.eqb_spec c "K") as [->|H2]; [right; simpl; tauto|].
  destruct (Ascii.eqb_spec c "M") as [->|H3]; [right; simpl; tauto|].
  destruct (Ascii.eqb_spec c "G") as [->|H4]; [right; simpl; tauto|].
  left. apply (isdigit_forall _ H). now repeat apply remove_char_In.
Qed.

(** Under the test of the loop of the total, the token holds only digits of
    [str.isdigit] and points. *)
Lemma add_size_float_argument (s : pystr) :
  isdigit (remove_char "." s) = true ->
  forall c, In c s -> isdigit_char c = true \/ c = "."%char.
Proof.
  intros H c Hin.
  destruct (Ascii.eqb_spec c ".") as [->|H1]; [now right|].
  left. apply (isdigit_forall _ H). now apply remove_char_In.
Qed.


(** ** What [_parse_size] returns *)

Lemma parse_size_plain (s : pystr) (k : pynum) :
  _parse_size s = Return k -> plain k.
Proof.
  unfold _parse_size.
  destruct (_ || _); [intros H; inversion H; now left|].
  assert (P1 : forall f, nonneg f = true ->
                 plain (py_mul (PyFloat f) (PyInt 1024))).
  { intros f Hf. apply plain_float. now apply fmul_1024_nonneg. }
  assert (P2 : forall f, nonneg f = true ->
                 plain (py_mul (py_mul (PyFloat f) (PyInt 1024)) (PyInt 1024))).
  { intros f Hf. apply plain_float. now do 2 apply fmul_1024_nonneg. }
  assert (P3 : forall f, nonneg f = true ->
                 plain (py_mul (py_mul (py_mul (PyFloat f) (PyInt 1024))
                                  (PyInt 1024)) (PyInt 1024))).
  { intros f Hf. apply plain_float. now do 3 apply fmul_1024_nonneg. }
  repeat match goal with
         | |- context [if ?b then _ else _] => destruct b
         end;
    try (intros H; inversion H; now left);
    match goal with
    | |- context [py_float ?x] =>
        destruct (py_float x) as [f|e] eqn:E; cbn [bind]; intros H;
        [injection H as <-|discriminate];
        pose proof (py_float_nonneg _ _ E) as Hf;
        first [ exact (P1 _ Hf) | exact (P2 _ Hf) | exact (P3 _ Hf)
              | exact (plain_float _ Hf) ]
    end.
Qed.

(** ** The loop of the total *)

Lemma add_size_returns (t : pynum) (s : pystr) (k : pynum) :
  _parse_size s = Return k -> plain t ->
  exists t', add_size t s = Return t' /\ plain t'.
Proof.
  intros Hk Ht. destruct (isdigit (remove_char "." s)) eqn:G.
  - rewrite (add_size_plain_token t s G).
    rewrite (parse_size_plain_token s G) in Hk.
    destruct (py_float s) as [f|e] eqn:E; [|discriminate].
    simpl. eexists. split; [reflexivity|].
    apply py_add_plain; [assumption|]. now apply (py_float_nonneg s).
  - rewrite (add_size_other t s G). eauto.
Qed.

Lemma total_size_loop_returns (files : list FileInfo) :
  sizes_parse files ->
  forall t0, plain t0 ->
  exists t, total_size_loop t0 files = Return t /\ plain t.
Proof.
  induction files as [|f files IH]; intros Hs t0 Ht0.
  - exists t0. now split.
  - destruct (Hs f (or_introl eq_refl)) as [k Hk].
    destruct (add_size_returns t0 (size f) k Hk Ht0) as (t' & E & Ht').
    simpl. rewrite E. simpl. apply IH; [|assumption].
    intros g Hg. apply Hs. now right.
Qed.

Lemma human_readable_returns (t : pynum) :
  plain t -> exists s, human_readable t = Return s.
Proof.
  intros Ht. unfold human_readable.
  destruct (py_gt t (PyInt (1024 * 1024 * 1024))); [eauto|].
  destruct (py_gt t (PyInt (1024 * 1024))); [eauto|].
  destruct (py_gt t (PyInt 1024)) eqn:G; [eauto|].
  destruct Ht as [->|[f [-> Hf]]]; [simpl; eauto|].
  destruct f as [s|s| |s m e]; simpl; eauto; try discriminate.
  simpl in Hf. apply negb_true_iff in Hf. subst s. discriminate.
Qed.

(** ** The sort keys *)

Lemma decorate_returns (files : list FileInfo) :
  sizes_parse files -> exists ks, decorate files = Return ks.
Proof.
  induction files as [|f files IH]; intros Hs; [simpl; eauto|].
  destruct (Hs f (or_introl eq_refl)) as [k Hk].
  destruct IH as [ks E]; [intros g Hg; apply Hs; now right|].
  simpl. rewrite Hk. simpl. rewrite E. simpl. eauto.
Qed.

Lemma decorate_spec (files : list FileInfo) :
  forall ks, decorate files = Return ks ->
  map snd ks = files
  /\ Forall (fun kf => _parse_size (size (snd kf)) = Return (fst kf)) ks.
Proof.
  induction files as [|f files IH]; intros ks H.
  - inversion H. now split.
  - simpl in H. destruct (_parse_size (size f)) as [k|e] eqn:Hk;
      [|discriminate].
    simpl in H. destruct (decorate files) as [ks'|e] eqn:E; [|discriminate].
    simpl in H. inversion H. subst ks. destruct (IH ks' eq_refl) as [Hm Hf].
    split; [simpl; now rewrite Hm|]. constructor; assumption.
Qed.

Lemma decorate_sizes_parse (files : list FileInfo) ks :
  decorate files = Return ks -> sizes_parse files.
Proof.
  revert ks. induction files as [|f files IH]; intros ks H g Hg.
  - destruct Hg.
  - simpl in H. destruct (_parse_size (size f)) as [k|e] eqn:Hk;
      [|discriminate].
    simpl in H. destruct (decorate files) as [ks'|e] eqn:E; [|discriminate].
    destruct Hg as [<-|Hg]; [eauto|]. now apply (IH ks').
Qed.

Lemma decorate_plain (files : list FileInfo) ks :
  decorate files = Return ks -> Forall (fun kf => is_nan (fst kf) = false) ks.
Proof.
  intros H. destruct (decorate_spec files ks H) as [_ Hf].
  eapply Forall_impl; [|exact Hf].
  intros [k f] Hk. simpl in *. apply plain_not_nan.
  now apply (parse_size_plain (size f)).
Qed.

(** ** The summary *)

Lemma summary_body_returns (path : pystr) (files : list FileInfo) :
  sizes_parse files ->
  exists t h ks,
    total_size_loop (PyInt 0) files = Return t
    /\ human_readable t = Return h
    /\ decorate files = Return ks
    /\ summary_body path files
       = Return [ ("path"%string, VStr path);
                  ("accessible"%string, VBool true);
                  ("total_items"%string, VInt (total_files files));
                  ("directories"%string, VInt (total_dirs files));
                  ("files"%string, VInt (total_regular_files files));
                  ("total_size"%string, VStr h);
                  ("largest_files"%string,
                    VFiles (firstn 3 (map snd (sorted_reverse ks)))) ].
Proof.
  intros Hs.
  destruct (total_size_loop_returns files Hs (PyInt 0) (or_introl eq_refl))
    as (t & Et & Ht).
  destruct (human_readable_returns t Ht) as [h Eh].
  destruct (decorate_returns files Hs) as [ks Ek].
  exists t, h, ks. repeat split; try assumption.
  unfold summary_body, largest_files. rewrite Et. simpl. rewrite Eh. simpl.
  rewrite Ek. reflexivity.
Qed.

Lemma summary_body_sizes_parse (path : pystr) (files : list FileInfo) d :
  summary_body path files = Return d -> sizes_parse files.
Proof.
  unfold summary_body, largest_files.
  destruct (total_size_loop (PyInt 0) files); [|discriminate]. simpl.
  destruct (human_readable a); [|discriminate]. simpl.
  destruct (decorate files) as [ks|e] eqn:E; [|discriminate].
  intros _. now apply (decorate_sizes_parse files ks).
Qed.

End SizeFacts.

(** * Facts about [sorted(..., reverse=True)] *)

Module SortFacts.
Import PyNumFacts.

Section Sort.
Context {A : Type}.
Implicit Types (x y : pynum * A) (l : list (pynum * A)).

(** *** The result is a rearrangement *)

Lemma insert_asc_perm x l : Permutation (insert_asc x l) (x :: l).
Proof.
  induction l as [|y l IH]; simpl; [reflexivity|].
  destruct (py_lt (fst y) (fst x)); [|reflexivity].
  rewrite IH. apply perm_swap.
Qed.

Lemma sort_asc_perm l : Permutation (sort_asc l) l.
Proof.
  induction l as [|x l IH]; simpl; [reflexivity|].
  rewrite insert_asc_perm. now constructor.
Qed.

Lemma sorted_reverse_perm l : Permutation (sorted_reverse l) l.
Proof.
  unfold sorted_reverse.
  now rewrite <- Permutation_rev, sort_asc_perm, <- Permutation_rev.
Qed.

(** *** Elements that tie keep their order *)

Lemma insert_asc_filter (P : pynum * A -> bool) x l :
  tie_class P -> filter P (insert_asc x l) = filter P (x :: l).
Proof.
  intros HP. induction l as [|y l IH]; [reflexivity|].
  simpl insert_asc. destruct (py_lt (fst y) (fst x)) eqn:E; [|reflexivity].
  cbn [filter] in *. rewrite IH.
  destruct (P x) eqn:Px; destruct (P y) eqn:Py; try reflexivity.
  rewrite (HP y x Py Px) in E. discriminate.
Qed.

Lemma sort_asc_filter (P : pynum * A -> bool) l :
  tie_class P -> filter P (sort_asc l) = filter P l.
Proof.
  intros HP. induction l as [|x l IH]; [reflexivity|].
  simpl sort_asc. rewrite (insert_asc_filter P _ _ HP).
  cbn [filter]. now rewrite IH.
Qed.

Lemma sorted_reverse_filter (P : pynum * A -> bool) l :
  tie_class P -> filter P (sorted_reverse l) = filter P l.
Proof.
  intros HP. unfold sorted_reverse.
  rewrite filter_rev, (sort_asc_filter P _ HP), filter_rev.
  apply rev_involutive.
Qed.

(** *** The result is in descending order of the keys *)

Lemma insert_asc_sorted x l :
  not_nan x -> Forall not_nan l ->
  StronglySorted (fun a b => key_ge b a) l ->
  StronglySorted (fun a b => key_ge b a) (insert_asc x l).
Proof.
  intros Hx Hl Hs. induction Hs as [|y l Hs IH Hy]; simpl.
  - repeat constructor.
  - inversion Hl as [|? ? Hny Hnl]; subst.
    destruct (py_lt (fst y) (fst x)) eqn:E.
    + constructor; [now apply IH|].
      rewrite insert_asc_perm. constructor; [|exact Hy].
      now apply py_lt_asym.
    + constructor; [now constructor|].
      constructor; [exact E|].
      rewrite Forall_forall in *. intros z Hz.
      apply (py_lt_false_trans (fst z) (fst y) (fst x));
        auto. now apply Hnl. now apply Hy.
Qed.

Lemma sort_asc_sorted l :
  Forall not_nan l -> StronglySorted (fun a b => key_ge b a) (sort_asc l).
Proof.
  induction l as [|x l IH]; intros H; simpl; [constructor|].
  inversion H; subst. apply insert_asc_sorted; auto.
  now rewrite sort_asc_perm.
Qed.

Lemma StronglySorted_app (R : pynum * A -> pynum * A -> Prop) l1 l2 :
  StronglySorted R l1 -> StronglySorted R l2 ->
  (forall a b, In a l1 -> In b l2 -> R a b) ->
  StronglySorted R (l1 ++ l2).
Proof.
  intros H1 H2 H. induction H1 as [|a l1 H1 IH Ha]; [exact H2|].
  simpl. constructor.
  - apply IH. intros; apply H; auto. now right.
  - apply Forall_app. split; [exact Ha|].
    apply Forall_forall. intros b Hb. apply H; auto. now left.
Qed.

Lemma StronglySorted_rev (R : pynum * A -> pynum * A -> Prop) l :
  StronglySorted R l -> StronglySorted (fun a b => R b a) (rev l).
Proof.
  induction 1 as [|a l Hs IH Ha]; simpl; [constructor|].
  apply StronglySorted_app; [exact IH|repeat constructor|].
  intros b c Hb [<-|[]]. rewrite Forall_forall in Ha.
  apply Ha. now apply in_rev.
Qed.

Lemma sorted_reverse_sorted l :
  Forall not_nan l -> StronglySorted key_ge (sorted_reverse l).
Proof.
  intros H. unfold sorted_reverse.
  apply (StronglySorted_rev (fun a b => key_ge b a)).
  apply sort_asc_sorted. now apply Forall_rev.
Qed.

Lemma tie_class_py_eq (k : pynum) :
  tie_class (fun x : pynum * A => py_eq (fst x) k).
Proof. intros a b Ha Hb. now apply (py_eq_not_lt _ _ k). Qed.

End Sort.

End SortFacts.

(** * Facts about suffixed tokens and the summary dictionary *)

Module SummaryFacts.
Import PyStrFacts PyNumFacts SizeFacts.

Lemma span_digits_spec (s : pystr) :
  s = fst (span_digits s) ++ snd (span_digits s)
  /\ forallb is_ascii_digit (fst (span_digits s)) = true.
Proof.
  induction s as [|c s [IH1 IH2]]; [now split|].
  simpl. destruct (is_ascii_digit c) eqn:Hc; [|now split].
  destruct (span_digits s) as [ds rest]. simpl in *.
  split; [now f_equal|]. now rewrite Hc.
Qed.

(** What [float] accepts holds digits and points only, and a digit. *)
Lemma py_float_chars (s : pystr) (f : float) :
  py_float s = Return f ->
  (forall c, In c s -> is_ascii_digit c = true \/ c = "."%char)
  /\ (exists c, In c s /\ is_ascii_digit c = true).
Proof.
  unfold py_float, parse_decimal.
  destruct (span_digits_spec s) as [Hs Hd].
  destruct (span_digits s) as [ip rest]. simpl in Hs, Hd.
  pose proof (proj1 (forallb_forall _ _) Hd) as Hip.
  destruct rest as [|c fp].
  - rewrite app_nil_r in Hs. subst ip.
    destruct s as [|c s]; [discriminate|]. intros _. split.
    + intros x Hx. left. now apply Hip.
    + exists c. split; [now left|]. apply Hip. now left.
  - destruct (Ascii.eqb c "." && forallb is_ascii_digit fp) eqn:E;
      [|discriminate].
    apply andb_true_iff in E. destruct E as [Ec Hfp].
    apply Ascii.eqb_eq in Ec. subst c.
    pose proof (proj1 (forallb_forall _ _) Hfp) as Hfp'.
    destruct (ip ++ fp) as [|d ds] eqn:E; [discriminate|]. intros _.
    assert (Hd' : In d ip \/ In d fp).
    { apply in_app_or. rewrite E. now left. }
    split.
    + intros x Hx. rewrite Hs in Hx. apply in_app_or in Hx.
      destruct Hx as [Hx|[<-|Hx]]; auto.
    + exists d. split.
      * rewrite Hs. apply in_or_app. destruct Hd'; [now left|right; now right].
      * destruct Hd'; auto.
Qed.

Lemma ascii_digit_isdigit (c : ascii) :
  is_ascii_digit c = true -> isdigit_char c = true.
Proof. unfold isdigit_char. now intros ->. Qed.

Lemma isdigit_intro (s : pystr) :
  (exists c, In c s) -> (forall c, In c s -> isdigit_char c = true) ->
  isdigit s = true.
Proof.
  intros [c Hc] H. destruct s as [|x s]; [destruct Hc|].
  unfold isdigit. now apply forallb_forall.
Qed.

(** The first guard of [_parse_size] lets a numeral with one of the
    suffixes through. *)
Lemma suffixed_guard (d : pystr) (f : float) (c : ascii) :
  py_float d = Return f -> In c [ "K"; "M"; "G" ]%char ->
  isdigit (remove_char "G" (remove_char "M" (remove_char "K"
             (remove_char "." (d ++ [c]))))) = true.
Proof.
  intros Hf Hc. destruct (py_float_chars d f Hf) as [Hall [c0 [Hin0 Hd0]]].
  apply isdigit_intro.
  - exists c0.
    repeat apply remove_char_In;
      [apply in_or_app; now left| | | |]; intros ->; discriminate.
  - intros x Hx.
    apply filter_In in Hx. destruct Hx as [Hx HG].
    apply filter_In in Hx. destruct Hx as [Hx HM].
    apply filter_In in Hx. destruct Hx as [Hx HK].
    apply filter_In in Hx. destruct Hx as [Hx Hdot].
    apply in_app_or in Hx. destruct Hx as [Hx|[<-|[]]].
    + destruct (Hall x Hx) as [H| ->]; [now apply ascii_digit_isdigit|].
      discriminate.
    + destruct Hc as [<-|[<-|[<-|[]]]]; discriminate.
Qed.

Lemma parse_size_suffixed (d : pystr) (f : float) :
  py_float d = Return f ->
  _parse_size (d ++ ["K"%char]) = Return (py_mul (PyFloat f) (PyInt 1024))
  /\ _parse_size (d ++ ["M"%char])
     = Return (py_mul (py_mul (PyFloat f) (PyInt 1024)) (PyInt 1024))
  /\ _parse_size (d ++ ["G"%char])
     = Return (py_mul (py_mul (py_mul (PyFloat f) (PyInt 1024))
                         (PyInt 1024)) (PyInt 1024)).
Proof.
  intros Hf.
  assert (Hne : forall c, match d ++ [c] with [] => true | _ => false end
                          = false) by (intros c; now destruct d).
  repeat split; unfold _parse_size;
    rewrite Hne, (suffixed_guard d f _ Hf) by (simpl; tauto);
    rewrite !endswith_char_snoc, drop_last_snoc, Hf; reflexivity.
Qed.

Lemma add_size_endswith (t : pynum) (s : pystr) (c : ascii) :
  In c [ "K"; "M"; "G" ]%char -> endswith_char s c = true ->
  add_size t s = Return t.
Proof.
  intros Hc He. apply add_size_other.
  apply (isdigit_remove_char_In "." c); [now apply endswith_char_In| |];
    destruct Hc as [<-|[<-|[<-|[]]]]; (discriminate || reflexivity).
Qed.

Lemma add_size_suffixed (t : pynum) (s : pystr) :
  suffixed s = true -> add_size t s = Return t.
Proof.
  unfold suffixed. intros H.
  apply orb_true_iff in H. destruct H as [H|H];
    [apply orb_true_iff in H; destruct H as [H|H]|].
  - apply (add_size_endswith t s "K"); [now left|exact H].
  - apply (add_size_endswith t s "M"); [right; now left|exact H].
  - apply (add_size_endswith t s "G"); [right; right; now left|exact H].
Qed.

(** ** The summary of a non-empty listing *)

Lemma directory_summary_accessible (path : pystr) (files : list FileInfo) :
  files <> [] ->
  get (directory_summary path files) "accessible" = Some (VBool true)
  <-> sizes_parse files.
Proof.
  intros Hne. destruct files as [|f files]; [contradiction|].
  unfold directory_summary. split.
  - destruct (summary_body path (f :: files)) as [d|e] eqn:E;
      [|discriminate].
    intros _. now apply (summary_body_sizes_parse path _ d).
  - intros Hs.
    destruct (summary_body_returns path _ Hs) as (t & h & ks & _ & _ & _ & E).
    now rewrite E.
Qed.

Lemma directory_summary_nonempty (path : pystr) (files : list FileInfo) :
  files <> [] -> sizes_parse files ->
  exists t h ks,
    total_size_loop (PyInt 0) files = Return t
    /\ human_readable t = Return h
    /\ decorate files = Return ks
    /\ directory_summary path files
       = [ ("path"%string, VStr path);
           ("accessible"%string, VBool true);
           ("total_items"%string, VInt (total_files files));
           ("directories"%string, VInt (total_dirs files));
           ("files"%string, VInt (total_regular_files files));
           ("total_size"%string, VStr h);
           ("largest_files"%string,
             VFiles (firstn 3 (map snd (sorted_reverse ks)))) ].
Proof.
  intros Hne Hs.
  destruct (summary_body_returns path files Hs)
    as (t & h & ks & Et & Eh & Ek & E).
  exists t, h, ks. repeat split; try assumption.
  destruct files as [|f files]; [contradiction|].
  unfold directory_summary. now rewrite E.
Qed.

End SummaryFacts.

(** * Properties of [list_directory] *)

Import ListingFacts PyStrFacts.

Lemma list_directory_ok execute_command path res :
  execute_command (ls_command path) = Return res ->
  exit_code res = 0 ->
  list_directory execute_command path = parse_listing (stdout res).
Proof.
  unfold list_directory, ls_command. intros -> ->. reflexivity.
Qed.

(** C4, as the code has it: when the command succeeds, the entries are, in
    the order of their lines, one per line with at least 9 tokens among the
    lines that remain once a first line starting with "total" is skipped (a
    blank line has no token); the first eight tokens are the fields
    permissions, links, owner, group, size, month, day and time, and the
    name is the tokens from index 8 on joined with single spaces. *)
Theorem list_directory_entries execute_command path res :
  execute_command (ls_command path) = Return res ->
  exit_code res = 0 ->
  let lines := skip_total (split_on nl (strip (stdout res))) in
  list_directory execute_command path
  = flat_map (fun line =>
                if (9 <=? List.length (split line))%nat
                then [file_info (split line)] else []) lines
  /\ (forall line, strip line = [] -> List.length (split line) = 0%nat)
  /\ (forall parts,
        let e := file_info parts in
        permissions e = nth 0 parts [] /\ links e = nth 1 parts []
        /\ owner e = nth 2 parts [] /\ group e = nth 3 parts []
        /\ size e = nth 4 parts [] /\ month e = nth 5 parts []
        /\ day e = nth 6 parts [] /\ time e = nth 7 parts []
        /\ name e = join (str " ") (skipn 8 parts)).
Proof.
  intros Hex Hcode lines. split; [|split].
  - rewrite (list_directory_ok _ _ _ Hex Hcode), parse_listing_spec.
    fold lines. clear. induction lines as [|l ls IH]; [reflexivity|].
    cbn [flat_map map filter]. unfold wide at 1.
    destruct (9 <=? List.length (split l))%nat; cbn [map app];
      now rewrite IH.
  - intros line H. now rewrite (strip_nil_split line H).
  - intros parts. simpl. repeat split.
Qed.

Lemma list_directory_entries_witness :
  list_directory (answers (str "-rw-r--r-- 1 u g 12 Jan 2 10:00 my  file"))
    (str "/")
  = [ {| permissions := str "-rw-r--r--"; links := str "1"; owner := str "u";
         group := str "g"; size := str "12"; month := str "Jan";
         day := str "2"; time := str "10:00"; name := str "my file" |} ].
Proof.
  pose proof (list_directory_entries
                (answers (str "-rw-r--r-- 1 u g 12 Jan 2 10:00 my  file"))
                (str "/") _ eq_refl eq_refl) as [H _].
  rewrite H. vm_compute. reflexivity.
Defined.

(** C4 as stated fails on a first line that starts with "total" and has
    9 tokens: the line is not blank, yet it yields no entry. *)
Lemma list_directory_total_line_counterexample :
  exists line,
    In line (split_on nl (strip (str "total 1 2 3 4 5 6 7 8")))
    /\ strip line <> []
    /\ (9 <=? List.length (split line))%nat = true
    /\ list_directory (answers (str "total 1 2 3 4 5 6 7 8")) (str "/") = [].
Proof.
  exists (str "total 1 2 3 4 5 6 7 8").
  split; [now left|]. split; [discriminate|]. split; reflexivity.
Qed.

(** C7: when the first line of the trimmed text starts with "total", that
    line is discarded and gives no entry, whatever its tokens: the entries
    are those of the lines after it.  So a text made of a line starting with
    "total", then N rows of at least 9 tokens each, with any whitespace
    (blank lines included) in front of it and behind it, parses to exactly
    the N entries of the rows. *)
Theorem list_directory_skips_total execute_command path res :
  execute_command (ls_command path) = Return res ->
  exit_code res = 0 ->
  (forall l0 rest,
     split_on nl (strip (stdout res)) = l0 :: rest ->
     startswith l0 (str "total") = true ->
     list_directory execute_command path
     = flat_map (fun line =>
                   if (9 <=? List.length (split line))%nat
                   then [file_info (split line)] else []) rest)
  /\ (forall w0 l0 rows w,
        stdout res = w0 ++ text_of l0 rows ++ w ->
        forallb isspace w0 = true ->
        startswith l0 (str "total") = true ->
        no_nl l0 = true ->
        Forall (fun r => no_nl r = true /\ wide (split r) = true) rows ->
        forallb isspace w = true ->
        list_directory execute_command path
        = map (fun r => file_info (split r)) rows
        /\ List.length (list_directory execute_command path)
           = List.length rows).
Proof.
  intros Hex Hcode. rewrite (list_directory_ok _ _ _ Hex Hcode). split.
  - intros l0 rest Hlines Htot.
    rewrite parse_listing_spec, Hlines. unfold skip_total. rewrite Htot.
    clear. induction rest as [|l ls IH]; [reflexivity|].
    cbn [flat_map map filter]. unfold wide at 1.
    destruct (9 <=? List.length (split l))%nat; cbn [map app];
      now rewrite IH.
  - intros w0 l0 rows w Hout Hw0 Htot Hl0 Hrows Hw.
    assert (E : parse_listing (stdout res)
                = map (fun r => file_info (split r)) rows).
    { rewrite Hout, (parse_listing_leading_space w0 _ Hw0).
      now apply parse_listing_total_rows. }
    split; [exact E|]. rewrite E. apply length_map.
Qed.

Lemma list_directory_skips_total_witness :
  list_directory
    (answers (str "total 1 2 3 4 5 6 7 8" ++ [nl]
              ++ str "-rw-r--r-- 1 u g 12 Jan 2 10:00 n.txt"))
    (str "/srv")
  = [ file_info (split (str "-rw-r--r-- 1 u g 12 Jan 2 10:00 n.txt")) ]
  /\ List.length
       (list_directory
          (answers ((str " " ++ [nl])
                    ++ text_of (str "total 48 1 2 3 4 5 6 7")
                         [ str "drwxr-xr-x 2 root root 4.0K Jan 1 00:00 logs";
                           str "-rw-r--r-- 1 u g 12 Jan 2 10:00 notes.txt" ]
                    ++ [nl]))
          (str "/srv"))
     = 2%nat.
Proof.
  split.
  - exact (proj1 (list_directory_skips_total
                    (answers (str "total 1 2 3 4 5 6 7 8" ++ [nl]
                              ++ str "-rw-r--r-- 1 u g 12 Jan 2 10:00 n.txt"))
                    (str "/srv")
                    {| stdout := str "total 1 2 3 4 5 6 7 8" ++ [nl]
                                 ++ str "-rw-r--r-- 1 u g 12 Jan 2 10:00 n.txt";
                       stderr := []; exit_code := 0 |}
                    eq_refl eq_refl)
             (str "total 1 2 3 4 5 6 7 8")
             [ str "-rw-r--r-- 1 u g 12 Jan 2 10:00 n.txt" ]
             eq_refl eq_refl).
  - refine (proj2 (proj2 (list_directory_skips_total (answers _) (str "/srv")
                            {| stdout := _; stderr := []; exit_code := 0 |}
                            eq_refl eq_refl)
                     (str " " ++ [nl])
                     (str "total 48 1 2 3 4 5 6 7")
                     [ str "drwxr-xr-x 2 root root 4.0K Jan 1 00:00 logs";
                       str "-rw-r--r-- 1 u g 12 Jan 2 10:00 notes.txt" ]
                     [nl] eq_refl eq_refl eq_refl eq_refl _ eq_refl)).
    repeat constructor.
Defined.

(** * Properties of [_parse_size] *)

Import PyNumFacts SizeFacts SortFacts SummaryFacts.

(** C9: the size table.  "512" gives 512.0, "1.5K" gives 1536.0, "2M" gives
    2097152.0 and "1G" gives 1073741824.0; the empty string and "abc" give
    the [int] 0, which equals 0.0. *)
Theorem parse_size_table :
  _parse_size (str "512") = Return (PyFloat (float_of_int 512))
  /\ _parse_size (str "1.5K") = Return (PyFloat (float_of_int 1536))
  /\ _parse_size (str "2M") = Return (PyFloat (float_of_int 2097152))
  /\ _parse_size (str "1G") = Return (PyFloat (float_of_int 1073741824))
  /\ _parse_size [] = Return (PyInt 0)
  /\ _parse_size (str "abc") = Return (PyInt 0)
  /\ py_eq (PyInt 0) (PyFloat (S754_zero false)) = true
  /\ py_eq (PyFloat (float_of_int 512)) (PyInt 512) = true
  /\ py_eq (PyFloat (float_of_int 1536)) (PyInt 1536) = true
  /\ py_eq (PyFloat (float_of_int 2097152)) (PyInt 2097152) = true
  /\ py_eq (PyFloat (float_of_int 1073741824)) (PyInt 1073741824) = true.
Proof. repeat split; vm_compute; reflexivity. Qed.

(** C2 fails on the code: on "1.2.3" the digit test passes, since it only
    looks at the token with its points removed, and [float] then raises
    ValueError; [_parse_size] does not return 0. *)
Theorem parse_size_two_points_raises :
  _parse_size (str "1.2.3") = Raise (ValueError_float (str "1.2.3"))
  /\ _parse_size (str "1KK") = Raise (ValueError_float (str "1K")).
Proof. split; vm_compute; reflexivity. Qed.

(** * Properties of [get_directory_summary] *)

(** C8: when the listing is empty the summary is inaccessible, carries the
    message "Directory empty or access denied", and has no other key than
    path, accessible and error: no count, no size, no ranking. *)
Theorem empty_listing_summary execute_command path :
  list_directory execute_command path = [] ->
  let d := get_directory_summary execute_command path in
  get d "accessible" = Some (VBool false)
  /\ get d "error" = Some (VStr (str "Directory empty or access denied"))
  /\ get d "path" = Some (VStr path)
  /\ keys d = [ "path"; "accessible"; "error" ]%string
  /\ get d "total_items" = None /\ get d "directories" = None
  /\ get d "files" = None /\ get d "total_size" = None
  /\ get d "largest_files" = None.
Proof.
  intros H d. subst d. unfold get_directory_summary. rewrite H.
  repeat split.
Qed.

Lemma empty_listing_summary_witness :
  get (get_directory_summary (fun _ => Raise Exception_not_connected)
         (str "/var/log")) "accessible"
  = Some (VBool false).
Proof.
  exact (proj1 (empty_listing_summary (fun _ => Raise Exception_not_connected)
                  (str "/var/log") eq_refl)).
Defined.

(** C3: the loop of the total adds nothing for a token that, with its
    points removed, is not made of digits; so a token ending in K, M or G
    leaves the total as it was, and the total of a listing is the total of
    its entries whose token has no such suffix.  Yet [_parse_size] gives a
    numeral followed by K, M or G its value times 1024, 1024 * 1024 or
    1024 * 1024 * 1024, and that value is the key of the entry in the
    ranking: whenever the summary has a largest_files, its total_size is
    that of the entries without suffix, while largest_files is the first 3
    of the entries sorted in descending order of their keys, the key of a
    suffixed numeral being its value in bytes; an entry whose key is above
    every other key comes first.  The listing of sizes "1000", "1.5K", "2M"
    has the total "1000 bytes" and the ranking "2M", "1.5K", "1000". *)
Theorem total_size_skips_suffixed :
  (forall t s, isdigit (remove_char "." s) = false -> add_size t s = Return t)
  /\ (forall t s c, In c [ "K"; "M"; "G" ]%char ->
        endswith_char s c = true -> add_size t s = Return t)
  /\ (forall t files,
        total_size_loop t files
        = total_size_loop t
            (filter (fun f => negb (suffixed (size f))) files))
  /\ (forall d f, py_float d = Return f ->
        _parse_size (d ++ str "K") = Return (py_mul (PyFloat f) (PyInt 1024))
        /\ _parse_size (d ++ str "M")
           = Return (py_mul (py_mul (PyFloat f) (PyInt 1024)) (PyInt 1024))
        /\ _parse_size (d ++ str "G")
           = Return (py_mul (py_mul (py_mul (PyFloat f) (PyInt 1024))
                               (PyInt 1024)) (PyInt 1024)))
  /\ (forall path files ranking,
        get (directory_summary path files) "largest_files"
        = Some (VFiles ranking) ->
        exists t h ks,
          total_size_loop (PyInt 0)
            (filter (fun f => negb (suffixed (size f))) files) = Return t
          /\ human_readable t = Return h
          /\ get (directory_summary path files) "total_size" = Some (VStr h)
          /\ decorate files = Return ks
          /\ largest_files files = Return ranking
          /\ ranking = firstn 3 (map snd (sorted_reverse ks))
          /\ (forall k f d x, In (k, f) ks -> py_float d = Return x ->
                (size f = d ++ str "K" ->
                 k = py_mul (PyFloat x) (PyInt 1024))
                /\ (size f = d ++ str "M" ->
                    k = py_mul (py_mul (PyFloat x) (PyInt 1024)) (PyInt 1024))
                /\ (size f = d ++ str "G" ->
                    k = py_mul (py_mul (py_mul (PyFloat x) (PyInt 1024))
                                  (PyInt 1024)) (PyInt 1024)))
          /\ (forall l1 k f l2,
                ks = l1 ++ (k, f) :: l2 ->
                Forall (fun x => py_lt (fst x) k = true) (l1 ++ l2) ->
                exists rest, ranking = f :: rest))
  /\ get (directory_summary (str "/")
            (map entry_of_size [ "1000"; "1.5K"; "2M" ]%string)) "total_size"
     = Some (VStr (str "1000 bytes"))
  /\ get (directory_summary (str "/")
            (map entry_of_size [ "1000"; "1.5K"; "2M" ]%string))
         "largest_files"
     = Some (VFiles (map entry_of_size [ "2M"; "1.5K"; "1000" ]%string)).
Proof.
  assert (Hfilter : forall t files,
            total_size_loop t files
            = total_size_loop t
                (filter (fun f => negb (suffixed (size f))) files)).
  { intros t files. revert t.
    induction files as [|f files IH]; intros t; [reflexivity|].
    cbn [filter total_size_loop]. destruct (suffixed (size f)) eqn:E.
    - rewrite (add_size_suffixed t (size f) E). cbn [negb bind]. apply IH.
    - cbn [negb total_size_loop].
      destruct (add_size t (size f)); cbn [bind]; [apply IH|reflexivity]. }
  split; [exact add_size_other|]. split; [exact add_size_endswith|].
  split; [exact Hfilter|]. split; [exact parse_size_suffixed|].
  split; [|split; vm_compute; reflexivity].
  intros path files ranking Hrank.
  assert (Hne : files <> []) by (intros ->; discriminate Hrank).
  assert (Hs : sizes_parse files).
  { destruct files as [|f0 files]; [contradiction|].
    unfold directory_summary in Hrank.
    destruct (summary_body path (f0 :: files)) as [d|e] eqn:E;
      [|discriminate Hrank].
    now apply (summary_body_sizes_parse path _ d). }
  destruct (directory_summary_nonempty path files Hne Hs)
    as (t & h & ks & Et & Eh & Ek & E).
  rewrite E in Hrank. cbn in Hrank. injection Hrank as <-.
  exists t, h, ks.
  split; [now rewrite <- Hfilter|]. split; [exact Eh|].
  split; [now rewrite E|]. split; [exact Ek|].
  split; [unfold largest_files; now rewrite Ek|]. split; [reflexivity|].
  destruct (decorate_spec files ks Ek) as [_ Hkeys].
  split.
  - intros k f d x Hin Hx.
    pose proof (proj1 (Forall_forall _ _) Hkeys (k, f) Hin) as Hk.
    cbn [fst snd] in Hk.
    destruct (parse_size_suffixed d x Hx) as (HK & HM & HG).
    repeat split; intros Hsize; rewrite Hsize in Hk; unfold str in Hk;
      cbn [list_ascii_of_string] in Hk; congruence.
  - intros l1 k f l2 Hks Hbelow.
    pose proof (sorted_reverse_perm ks) as Hperm.
    pose proof (sorted_reverse_sorted ks (decorate_plain files ks Ek))
      as Hsorted.
    assert (Hin : In (k, f) (sorted_reverse ks)).
    { apply (Permutation_in _ (Permutation_sym Hperm)).
      rewrite Hks. apply in_or_app. right. now left. }
    destruct (sorted_reverse ks) as [|top tl] eqn:Es; [destruct Hin|].
    assert (Htop : top = (k, f) \/ py_lt (fst top) k = true).
    { assert (In top ks)
        by (apply (Permutation_in _ Hperm); now left).
      rewrite Hks in H. apply in_app_or in H.
      pose proof (proj1 (Forall_forall _ _) Hbelow) as Hb.
      destruct H as [H|[H|H]]; [right|now left|right];
        apply Hb; apply in_or_app; [now left|now right]. }
    destruct Htop as [->|Htop]; [cbn; eauto|].
    exfalso. destruct Hin as [->|Hin].
    + cbn [fst] in Htop. pose proof (py_lt_asym k k Htop). congruence.
    + inversion Hsorted as [|? ? _ Hall]; subst.
      pose proof (proj1 (Forall_forall _ _) Hall (k, f) Hin) as Hge.
      unfold key_ge in Hge. cbn [fst] in Hge. congruence.
Qed.

Lemma total_size_skips_suffixed_witness :
  add_size (PyInt 0) (str "x-y") = Return (PyInt 0)
  /\ add_size (PyInt 0) (str "1.5K") = Return (PyInt 0)
  /\ total_size_loop (PyInt 0) [ entry_of_size "1.5K"; entry_of_size "2M" ]
     = Return (PyInt 0)
  /\ _parse_size (str "1.5" ++ str "K")
     = Return (py_mul (PyFloat (S754_finite false 6755399441055744 (-52)))
                 (PyInt 1024))
  /\ get (directory_summary (str "/")
            [ entry_of_size "1535"; entry_of_size "1.5K" ]) "total_size"
     = Some (VStr (str "1.5KB"))
  /\ largest_files [ entry_of_size "1535"; entry_of_size "1.5K" ]
     = Return [ entry_of_size "1.5K"; entry_of_size "1535" ].
Proof.
  destruct total_size_skips_suffixed as (H1 & H2 & H3 & H4 & H5 & _).
  split; [exact (H1 (PyInt 0) (str "x-y") eq_refl)|].
  split; [exact (H2 (PyInt 0) (str "1.5K") "K"%char (or_introl eq_refl)
                   eq_refl)|].
  split; [exact (H3 (PyInt 0) [ entry_of_size "1.5K"; entry_of_size "2M" ])|].
  split; [exact (proj1 (H4 (str "1.5") _ eq_refl))|].
  destruct (H5 (str "/") [ entry_of_size "1535"; entry_of_size "1.5K" ]
              [ entry_of_size "1.5K"; entry_of_size "1535" ] eq_refl)
    as (t & h & ks & Et & Eh & Etot & _ & Er & _).
  split; [|exact Er].
  rewrite Etot. cbn in Et. injection Et as <-.
  vm_compute in Eh. injection Eh as <-. reflexivity.
Defined.

(** C1 fails on the code: the one entry of size "1.5K" counts for nothing
    in the total, which is reported as "0 bytes", while [_parse_size] gives
    the token 1536.0. *)
Theorem total_size_misses_suffixed_entry :
  get (directory_summary (str "/") [ entry_of_size "1.5K" ]) "total_size"
  = Some (VStr (str "0 bytes"))
  /\ total_size_loop (PyInt 0) [ entry_of_size "1.5K" ] = Return (PyInt 0)
  /\ _parse_size (size (entry_of_size "1.5K"))
     = Return (PyFloat (float_of_int 1536)).
Proof. repeat split; vm_compute; reflexivity. Qed.

(** C6: the total is shown in GB, MB or KB, the first of these whose
    threshold 1024 * 1024 * 1024, 1024 * 1024 or 1024 it exceeds strictly,
    divided by the threshold and with one decimal; a total that exceeds none
    is shown as its integer part followed by " bytes".  A total of 1024 is
    "1024 bytes" and a total of 1025 is "1.0KB". *)
Theorem human_readable_thresholds :
  (forall t,
     py_gt t (PyInt (1024 * 1024 * 1024)) = true ->
     human_readable t
     = Return (format_1f (fdiv (to_float t)
                            (float_of_int (1024 * 1024 * 1024)))
               ++ str "GB"))
  /\ (forall t,
        py_gt t (PyInt (1024 * 1024 * 1024)) = false ->
        py_gt t (PyInt (1024 * 1024)) = true ->
        human_readable t
        = Return (format_1f (fdiv (to_float t) (float_of_int (1024 * 1024)))
                  ++ str "MB"))
  /\ (forall t,
        py_gt t (PyInt (1024 * 1024)) = false ->
        py_gt t (PyInt 1024) = true ->
        py_gt t (PyInt (1024 * 1024 * 1024)) = false
        /\ human_readable t
           = Return (format_1f (fdiv (to_float t) (float_of_int 1024))
                     ++ str "KB"))
  /\ (forall t,
        py_gt t (PyInt 1024) = false ->
        py_gt t (PyInt (1024 * 1024)) = false
        /\ py_gt t (PyInt (1024 * 1024 * 1024)) = false
        /\ human_readable t
           = (z <- py_int t ;; Return (str_of_int z ++ str " bytes")))
  /\ human_readable (PyFloat (float_of_int 1024)) = Return (str "1024 bytes")
  /\ human_readable (PyFloat (float_of_int 1025)) = Return (str "1.0KB")
  /\ get (directory_summary (str "/") [ entry_of_size "1024" ]) "total_size"
     = Some (VStr (str "1024 bytes"))
  /\ get (directory_summary (str "/") [ entry_of_size "1025" ]) "total_size"
     = Some (VStr (str "1.0KB")).
Proof.
  assert (Hmono : forall t a b, (a <= b)%Z -> py_gt t (PyInt a) = false ->
                                py_gt t (PyInt b) = false).
  { intros t a b Hab. unfold py_gt, py_compare.
    destruct (value t) as [|[]|q]; cbn [value xcompare]; try easy.
    destruct (q ?= inject_Z b)%Q eqn:E; try reflexivity.
    pose proof (proj2 (Qgt_alt q (inject_Z b)) E) as Hb.
    assert (Ha : (inject_Z a < q)%Q).
    { apply Qle_lt_trans with (inject_Z b); [|exact Hb].
      now rewrite <- Zle_Qle. }
    now rewrite (proj1 (Qgt_alt q (inject_Z a)) Ha). }
  split; [intros t H; unfold human_readable; now rewrite H|].
  split; [intros t H1 H2; unfold human_readable; now rewrite H1, H2|].
  split.
  - intros t H1 H2.
    assert (H0 : py_gt t (PyInt (1024 * 1024 * 1024)) = false)
      by (apply (Hmono t (1024 * 1024)); [lia|exact H1]).
    split; [exact H0|]. unfold human_readable. now rewrite H0, H1, H2.
  - split.
    + intros t H.
      assert (H1 : py_gt t (PyInt (1024 * 1024)) = false)
        by (apply (Hmono t 1024); [lia|exact H]).
      assert (H0 : py_gt t (PyInt (1024 * 1024 * 1024)) = false)
        by (apply (Hmono t 1024); [lia|exact H]).
      repeat split; try assumption.
      unfold human_readable. now rewrite H0, H1, H.
    + repeat split; vm_compute; reflexivity.
Qed.

Lemma human_readable_thresholds_witness :
  human_readable (PyFloat (float_of_int 2048)) = Return (str "2.0KB")
  /\ human_readable (PyFloat (float_of_int 1024)) = Return (str "1024 bytes").
Proof.
  destruct human_readable_thresholds as (_ & _ & H3 & H4 & _).
  split.
  - exact (proj2 (H3 (PyFloat (float_of_int 2048)) eq_refl eq_refl)).
  - exact (proj2 (proj2 (H4 (PyFloat (float_of_int 1024)) eq_refl))).
Defined.

(** C10 fails on the code: the listing of a directory and of a file of
    size "1.2.3" has 2 entries, 1 directory and 1 other entry, but the loop
    of the total lets "1.2.3" through its digit test, [float] raises
    ValueError on it, and the summary that comes back is the error
    dictionary, without any of the three counts. *)
Theorem counts_lost_on_float_error :
  let files := [ file_info (split (str "drwxr-xr-x 2 r r 4.0K Jan 1 00:00 d"));
                 entry_of_size "1.2.3" ] in
  let d := directory_summary (str "/") files in
  total_files files = 2 /\ total_dirs files = 1
  /\ total_regular_files files = 1
  /\ isdigit (remove_char "." (str "1.2.3")) = true
  /\ add_size (PyInt 0) (str "1.2.3") = Raise (ValueError_float (str "1.2.3"))
  /\ total_size_loop (PyInt 0) files = Raise (ValueError_float (str "1.2.3"))
  /\ d = [ ("path"%string, VStr (str "/"));
           ("accessible"%string, VBool false);
           ("error"%string, VStrOfExn (ValueError_float (str "1.2.3"))) ]
  /\ get d "total_items" = None /\ get d "directories" = None
  /\ get d "files" = None.
Proof. repeat split; vm_compute; reflexivity. Qed.

(** X19: the accessible summary of a non-empty listing has total_items
    the number of entries, directories the number of entries whose
    permissions start with 'd', files the number of the other entries, and
    directories + files = total_items. *)
Theorem counts_invariant path files :
  files <> [] ->
  get (directory_summary path files) "accessible" = Some (VBool true) ->
  let is_dir := fun f => startswith (permissions f) (str "d") in
  exists total_items directories regular,
    get (directory_summary path files) "total_items" = Some (VInt total_items)
    /\ get (directory_summary path files) "directories"
       = Some (VInt directories)
    /\ get (directory_summary path files) "files" = Some (VInt regular)
    /\ total_items = Z.of_nat (List.length files)
    /\ directories = Z.of_nat (List.length (filter is_dir files))
    /\ regular
       = Z.of_nat (List.length (filter (fun f => negb (is_dir f)) files))
    /\ directories + regular = total_items.
Proof.
  intros Hne Hacc is_dir.
  apply (directory_summary_accessible path files Hne) in Hacc.
  destruct (directory_summary_nonempty path files Hne Hacc)
    as (t & h & ks & _ & _ & _ & E).
  rewrite E.
  exists (total_files files), (total_dirs files), (total_regular_files files).
  pose proof (filter_length is_dir files) as Hlen.
  unfold total_regular_files, total_dirs, total_files. fold is_dir.
  repeat split; lia.
Qed.

Lemma counts_invariant_witness :
  exists total_items directories regular,
    get (directory_summary (str "/")
           [ file_info (split (str "drwxr-xr-x 2 r r 4.0K Jan 1 00:00 logs"));
             entry_of_size "12" ]) "total_items"
    = Some (VInt total_items)
    /\ total_items = 2 /\ directories = 1 /\ regular = 1.
Proof.
  destruct (counts_invariant (str "/")
              [ file_info (split (str "drwxr-xr-x 2 r r 4.0K Jan 1 00:00 logs"));
                entry_of_size "12" ])
    as (ti & dc & fc & H1 & _ & _ & H4 & H5 & H6 & _);
    [discriminate|reflexivity|].
  exists ti, dc, fc. repeat split; assumption.
Defined.

(** C5 fails on the code: for the entries of sizes "2M" and "1.2.3" the
    loop of the total lets "1.2.3" through its digit test and [float]
    raises ValueError on it before any sort key is computed; for the
    entries of sizes "2M" and "1.2.3K" the loop returns and it is the sort
    key [_parse_size] that raises.  Either way the summary that comes back
    is the error dictionary, without largest_files. *)
Theorem largest_files_lost_on_float_error :
  let files  := [ entry_of_size "2M"; entry_of_size "1.2.3" ] in
  let files' := [ entry_of_size "2M"; entry_of_size "1.2.3K" ] in
  isdigit (remove_char "." (str "1.2.3")) = true
  /\ add_size (PyInt 0) (str "1.2.3") = Raise (ValueError_float (str "1.2.3"))
  /\ total_size_loop (PyInt 0) files = Raise (ValueError_float (str "1.2.3"))
  /\ directory_summary (str "/") files
     = [ ("path"%string, VStr (str "/"));
         ("accessible"%string, VBool false);
         ("error"%string, VStrOfExn (ValueError_float (str "1.2.3"))) ]
  /\ get (directory_summary (str "/") files) "largest_files" = None
  /\ total_size_loop (PyInt 0) files' = Return (PyInt 0)
  /\ human_readable (PyInt 0) = Return (str "0 bytes")
  /\ _parse_size (str "1.2.3K") = Raise (ValueError_float (str "1.2.3"))
  /\ largest_files files' = Raise (ValueError_float (str "1.2.3"))
  /\ directory_summary (str "/") files'
     = [ ("path"%string, VStr (str "/"));
         ("accessible"%string, VBool false);
         ("error"%string, VStrOfExn (ValueError_float (str "1.2.3"))) ]
  /\ get (directory_summary (str "/") files') "largest_files" = None.
Proof. repeat split; vm_compute; reflexivity. Qed.

(** X18: when [_parse_size] returns on the size token of every entry of a
    non-empty listing, largest_files is the first 3 of the entries sorted
    by that key in descending order, the entries with equal keys staying in
    their order in the listing.  For the sizes "1K", "3M", "500", "2M" it
    lists the entries of "3M", "2M" and "1K". *)
Theorem largest_files_ranking :
  (forall path files,
     files <> [] -> sizes_parse files ->
     exists ks ranked : list (pynum * FileInfo),
       map snd ks = files
       /\ Forall (fun kf => _parse_size (size (snd kf)) = Return (fst kf)) ks
       /\ get (directory_summary path files) "largest_files"
          = Some (VFiles (firstn 3 (map snd ranked)))
       /\ Permutation ranked ks
       /\ StronglySorted key_ge ranked
       /\ (forall k, filter (fun x => py_eq (fst x) k) ranked
                     = filter (fun x => py_eq (fst x) k) ks))
  /\ get (directory_summary (str "/")
            (map entry_of_size [ "1K"; "3M"; "500"; "2M" ]%string))
         "largest_files"
     = Some (VFiles (map entry_of_size [ "3M"; "2M"; "1K" ]%string)).
Proof.
  split; [|vm_compute; reflexivity].
  intros path files Hne Hs.
  destruct (directory_summary_nonempty path files Hne Hs)
    as (t & h & ks & _ & _ & Ek & E).
  destruct (decorate_spec files ks Ek) as [Hmap Hkeys].
  exists ks, (sorted_reverse ks). rewrite E.
  split; [exact Hmap|]. split; [exact Hkeys|]. split; [reflexivity|].
  split; [apply sorted_reverse_perm|].
  split; [apply sorted_reverse_sorted; now apply (decorate_plain files)|].
  intros k. apply sorted_reverse_filter, tie_class_py_eq.
Qed.

Lemma largest_files_ranking_witness :
  exists ks ranked : list (pynum * FileInfo),
    map snd ks = map entry_of_size [ "7"; "5K"; "7"; "9" ]%string
    /\ get (directory_summary (str "/")
              (map entry_of_size [ "7"; "5K"; "7"; "9" ]%string))
           "largest_files"
       = Some (VFiles (firstn 3 (map snd ranked)))
    /\ StronglySorted key_ge ranked.
Proof.
  destruct (proj1 largest_files_ranking (str "/")
              (map entry_of_size [ "7"; "5K"; "7"; "9" ]%string))
    as (ks & ranked & H1 & _ & H3 & _ & H5 & _).
  - discriminate.
  - intros f [<-|[<-|[<-|[<-|[]]]]]; eexists; vm_compute; reflexivity.
  - exists ks, ranked. repeat split; assumption.
Defined.

(** * The session: [execute_command], [get_system_info], [change_directory] *)

Module TransportFacts.
Import Transport PyStrFacts.

Lemma execute_command_connected {E : Type} (str_of_error : E -> pystr)
  (run : session E) (command : pystr) :
  execute_command str_of_error (Some run) command
  = Return (reply str_of_error run command).
Proof. unfold execute_command, reply. now destruct (run command). Qed.

Lemma rstrip_idem (s : pystr) : rstrip (rstrip s) = rstrip s.
Proof.
  induction s as [|c s IH]; [reflexivity|].
  simpl. destruct (rstrip s) as [|x r] eqn:E.
  - destruct (isspace c) eqn:Hc; [reflexivity|]. simpl. now rewrite Hc.
  - rewrite rstrip_cons_nonnil; rewrite IH; [reflexivity|discriminate].
Qed.

Lemma lstrip_head (s : pystr) :
  lstrip s = [] \/ exists c t, lstrip s = c :: t /\ isspace c = false.
Proof.
  induction s as [|c s IH]; [now left|].
  simpl. destruct (isspace c) eqn:Hc; [exact IH|]. right. eauto.
Qed.

(** Stripping twice is stripping once. *)
Lemma strip_idem (s : pystr) : strip (strip s) = strip s.
Proof.
  unfold strip. destruct (lstrip_head s) as [E|(c & t & E & Hc)]; rewrite E.
  - reflexivity.
  - rewrite (rstrip_cons_nonspace c t Hc). simpl lstrip. rewrite Hc.
    rewrite <- (rstrip_cons_nonspace c t Hc). apply rstrip_idem.
Qed.

End TransportFacts.

Import Transport TransportFacts.

(** X1: whatever goes wrong with the command, the listing is empty and the
    summary is the one of an empty directory: a client without a session
    ([self.client] is None), a session that raises, and a command that ends
    with a non-zero exit code all give the dictionary path,
    accessible = False, error = "Directory empty or access denied". *)
Theorem failed_command_looks_empty {E : Type} (str_of_error : E -> pystr)
  (client : option (session E)) (path : pystr) :
  (client = None
   \/ (exists run e, client = Some run /\ run (ls_command path) = inl e)
   \/ (exists run res, client = Some run /\ run (ls_command path) = inr res
                       /\ exit_code res <> 0)) ->
  list_directory (execute_command str_of_error client) path = []
  /\ get_directory_summary (execute_command str_of_error client) path
     = [ ("path"%string, VStr path);
         ("accessible"%string, VBool false);
         ("error"%string, VStr (str "Directory empty or access denied")) ].
Proof.
  intros H.
  assert (L : list_directory (execute_command str_of_error client) path = []).
  { unfold list_directory. fold (ls_command path).
    destruct H as [->|[(run & e & -> & Hr)|(run & res & -> & Hr & Hc)]].
    - reflexivity.
    - unfold execute_command. rewrite Hr. reflexivity.
    - unfold execute_command. rewrite Hr.
      destruct (Z.eqb_spec (exit_code res) 0); [contradiction|reflexivity]. }
  split; [exact L|]. unfold get_directory_summary. now rewrite L.
Qed.

Lemma failed_command_looks_empty_witness :
  list_directory
    (execute_command (fun _ : unit => str "timed out")
       (Some (fun _ => inl tt))) (str "/srv")
  = [].
Proof.
  refine (proj1 (failed_command_looks_empty (fun _ : unit => str "timed out")
                   (Some (fun _ => inl tt)) (str "/srv") _)).
  right. left. exists (fun _ => inl tt), tt. split; reflexivity.
Defined.

(** X2: on a connected client [get_system_info] always returns, with the
    seven keys hostname, uptime, disk_usage, memory, cpu_info, current_dir
    and user in this order; under each key is the stripped output of its
    command when the command ended with exit code 0, and otherwise
    "Error: " followed by its error output or by the text of the exception
    of the session, so that one failing command hides no other.  On a client
    without a session ([self.client] is None) it raises. *)
Theorem system_info_keys {E : Type} (str_of_error : E -> pystr) :
  (forall run : session E,
     exists info,
       get_system_info str_of_error (Some run) = Return info
       /\ map fst info
          = [ "hostname"; "uptime"; "disk_usage"; "memory"; "cpu_info";
              "current_dir"; "user" ]%string
       /\ forall key command,
            In (key, command) commands ->
            exists value,
              dict_get info key = Some value
              /\ match run command with
                 | inr res =>
                     if Z.eqb (exit_code res) 0
                     then value = strip (stdout res) /\ strip value = value
                     else value = str "Error: " ++ stderr res
                 | inl e => value = str "Error: " ++ str_of_error e
                 end)
  /\ get_system_info str_of_error None = Raise Exception_not_connected.
Proof.
  split; [|reflexivity]. intros run.
  eexists. split; [|split].
  - unfold get_system_info, commands. cbn [get_system_info_loop].
    rewrite !execute_command_connected. cbn [bind dict_set String.eqb].
    reflexivity.
  - reflexivity.
  - intros key command Hin.
    assert (V : forall c,
              match run c with
              | inr res =>
                  if Z.eqb (exit_code res) 0
                  then info_value (reply str_of_error run c)
                       = strip (stdout res)
                       /\ strip (info_value (reply str_of_error run c))
                          = info_value (reply str_of_error run c)
                  else info_value (reply str_of_error run c)
                       = str "Error: " ++ stderr res
              | inl e => info_value (reply str_of_error run c)
                         = str "Error: " ++ str_of_error e
              end).
    { intros c. unfold info_value, reply. destruct (run c) as [e|res].
      - reflexivity.
      - destruct (Z.eqb (exit_code res) 0); [|reflexivity].
        split; [reflexivity|apply strip_idem]. }
    unfold commands in Hin. simpl in Hin.
    repeat (destruct Hin as [Hin|Hin];
            [injection Hin as <- <-; eexists; split; [reflexivity|apply V]|]).
    destruct Hin.
Qed.

Lemma system_info_keys_witness :
  exists info,
    get_system_info (fun _ : unit => str "timed out")
      (Some (fun c => if Config.str_eqb c (str "pwd")
                      then inr {| stdout := str " /home/forge" ++ [nl];
                                stderr := []; exit_code := 0 |}
                      else inl tt))
    = Return info
    /\ dict_get info "current_dir" = Some (str "/home/forge")
    /\ dict_get info "user" = Some (str "Error: timed out").
Proof.
  destruct (proj1 (system_info_keys (fun _ : unit => str "timed out"))
              (fun c => if Config.str_eqb c (str "pwd")
                        then inr {| stdout := str " /home/forge" ++ [nl];
                                stderr := []; exit_code := 0 |}
                        else inl tt))
    as (info & E & _ & H).
  exists info. split; [exact E|].
  destruct (H "current_dir"%string (str "pwd")) as (v1 & G1 & V1);
    [simpl; tauto|].
  destruct (H "user"%string (str "whoami")) as (v2 & G2 & V2);
    [simpl; tauto|].
  simpl in V1, V2. destruct V1 as [V1 _]. subst v1 v2. now split.
Defined.

(** X3: [change_directory] never raises, and it returns True exactly when
    the client has a session, the session did not raise, and the command
    "cd path && pwd" ended with exit code 0. *)
Theorem change_directory_true_iff {E : Type} (str_of_error : E -> pystr)
  (client : option (session E)) (path : pystr) :
  change_directory str_of_error client path = true
  <-> exists run res,
        client = Some run
        /\ run (str "cd " ++ path ++ str " && pwd") = inr res
        /\ exit_code res = 0.
Proof.
  unfold change_directory, execute_command. split.
  - destruct client as [run|]; [|discriminate].
    destruct (run _) as [e|res] eqn:Hr; [discriminate|].
    destruct (Z.eqb_spec (exit_code res) 0); [|discriminate].
    intros _. now exists run, res.
  - intros (run & res & -> & -> & ->). reflexivity.
Qed.

Lemma change_directory_true_iff_witness :
  change_directory (fun _ : unit => str "timed out")
    (Some (fun _ => inr {| stdout := str "/tmp"; stderr := [];
                           exit_code := 0 |}))
    (str "/tmp")
  = true.
Proof.
  apply (proj2 (change_directory_true_iff (fun _ : unit => str "timed out")
                  (Some (fun _ => inr {| stdout := str "/tmp"; stderr := [];
                                         exit_code := 0 |}))
                  (str "/tmp"))).
  eexists _, _. repeat split.
Defined.

(** * The configuration: [get_ssh_config] *)

Module ConfigFacts.
Import Config.

Section Environment.
Variable getenv : string -> option pystr.
Variable int_of_str : pystr -> option Z.
Variable expanduser : pystr -> pystr.
Variable path_exists : pystr -> bool.

Lemma ask_done (stdin : list pystr) (answer : pystr) (rest : list pystr) :
  ask stdin = Done (answer, rest) ->
  answer <> [] /\ exists line, stdin = line :: rest /\ answer = strip line.
Proof.
  unfold ask, input. destruct stdin as [|line stdin]; [discriminate|].
  simpl. destruct (strip line) as [|c a] eqn:E; [discriminate|].
  intros H. injection H as <- <-. split; [discriminate|]. now exists line.
Qed.

Lemma prompt_host_done (h0 : option pystr) (stdin : list pystr)
  (h : pystr) (rest : list pystr) :
  prompt_host h0 stdin = Done (h, rest) ->
  h <> [] /\ exists read, stdin = read ++ rest /\ (List.length read <= 1)%nat.
Proof.
  unfold prompt_host.
  assert (A : ask stdin = Done (h, rest) ->
              h <> [] /\ exists read, stdin = read ++ rest
                                      /\ (List.length read <= 1)%nat).
  { intros H. destruct (ask_done _ _ _ H) as [Hne (line & -> & _)].
    split; [exact Hne|]. exists [line]. split; [reflexivity|simpl; lia]. }
  destruct h0 as [[|c x]|]; try exact A.
  intros H. injection H as <- <-. split; [discriminate|].
  exists []. split; [reflexivity|simpl; lia].
Qed.

Lemma prompt_key_done (k0 : option pystr) (stdin : list pystr)
  (k : pystr) (rest : list pystr) :
  prompt_key expanduser path_exists k0 stdin = Done (k, rest) ->
  k <> [] /\ exists read, stdin = read ++ rest /\ (List.length read <= 2)%nat.
Proof.
  unfold prompt_key.
  assert (A : forall s, ask s = Done (k, rest) ->
              k <> [] /\ exists read, s = read ++ rest
                                      /\ (List.length read <= 1)%nat).
  { intros s H. destruct (ask_done _ _ _ H) as [Hne (line & -> & _)].
    split; [exact Hne|]. exists [line]. split; [reflexivity|simpl; lia]. }
  assert (B : match find_key expanduser path_exists common_keys with
              | Some (c :: found_key) =>
                  obind (input stdin) (fun '(line, rest0) =>
                    if existsb (str_eqb (lower (strip line)))
                         [ []; str "y"; str "yes" ]
                    then Done (c :: found_key, rest0)
                    else ask rest0)
              | _ => ask stdin
              end = Done (k, rest) ->
              k <> [] /\ exists read, stdin = read ++ rest
                                      /\ (List.length read <= 2)%nat).
  { destruct (find_key expanduser path_exists common_keys) as [[|c f]|].
    - intros H. destruct (A _ H) as [Hne (read & -> & Hl)].
      split; [exact Hne|]. exists read. split; [reflexivity|lia].
    - destruct stdin as [|line stdin]; [discriminate|].
      unfold input. cbn [obind].
      match goal with
      | |- context [existsb ?f ?l] => destruct (existsb f l)
      end.
      + intros H. injection H as <- <-. split; [discriminate|].
        exists [line]. split; [reflexivity|simpl; lia].
      + intros H. destruct (A _ H) as [Hne (read & -> & Hl)].
        split; [exact Hne|]. exists (line :: read).
        split; [reflexivity|simpl; lia].
    - intros H. destruct (A _ H) as [Hne (read & -> & Hl)].
      split; [exact Hne|]. exists read. split; [reflexivity|lia]. }
  destruct k0 as [[|c x]|]; try exact B.
  intros H. injection H as <- <-. split; [discriminate|].
  exists []. split; [reflexivity|simpl; lia].
Qed.

End Environment.

End ConfigFacts.

Import Config ConfigFacts.

(** X4: whenever [get_ssh_config] returns a configuration, its host and its
    key are not empty, and at most three lines of input were read to get
    there. *)
Theorem ssh_config_host_and_key getenv int_of_str expanduser path_exists
  (args : Args) (stdin : list pystr) (c : Config.Config) (rest : list pystr) :
  get_ssh_config getenv int_of_str expanduser path_exists args stdin
  = Done (c, rest) ->
  host c <> [] /\ key c <> []
  /\ exists read, stdin = read ++ rest /\ (List.length read <= 3)%nat.
Proof.
  unfold get_ssh_config.
  destruct (match arg_port args with
            | Some 0 | None =>
                match int_of_str _ with
                | Some p => Done p
                | None => ValueError_int _
                end
            | Some p => Done p
            end) as [p| | |]; try discriminate.
  cbn [obind].
  destruct (prompt_host _ stdin) as [[h s1]| | |] eqn:Hh; try discriminate.
  cbn [obind].
  destruct (prompt_key _ _ _ s1) as [[k s2]| | |] eqn:Hk; try discriminate.
  cbn [obind]. intros H. injection H as <- <-. cbn [host key].
  destruct (prompt_host_done _ _ _ _ Hh) as [Hhne (r1 & -> & L1)].
  destruct (prompt_key_done _ _ _ _ _ _ Hk) as [Hkne (r2 & -> & L2)].
  split; [exact Hhne|]. split; [exact Hkne|].
  exists (r1 ++ r2). split; [now rewrite app_assoc|].
  rewrite length_app. lia.
Qed.

Lemma ssh_config_host_and_key_witness :
  host {| host := str "10.0.0.1"; user := str "forge"; key := str "~/k.pem";
          port := 22 |} <> []
  /\ key {| host := str "10.0.0.1"; user := str "forge"; key := str "~/k.pem";
            port := 22 |} <> [].
Proof.
  destruct (ssh_config_host_and_key (fun _ => None) int_of_decimal
              (fun p => p) (fun _ => false)
              {| arg_host := None; arg_user := None; arg_key := None;
                 arg_port := None; arg_verbose := false |}
              [ str " 10.0.0.1 "; str "  ~/k.pem"; str "unread" ]
              {| host := str "10.0.0.1"; user := str "forge";
                 key := str "~/k.pem"; port := 22 |}
              [ str "unread" ] eq_refl)
    as (H1 & H2 & _).
  split; [exact H1|exact H2].
Defined.



(** X6: without --port, or with --port 0, the port is read from
    AWS_SSH_PORT (from "22" when it is not set), and a value that [int]
    rejects makes [get_ssh_config] raise ValueError before it reads any
    input, also when the host and the key are known. *)
Theorem ssh_config_port_from_environment getenv int_of_str expanduser
  path_exists (args : Args) (stdin : list pystr) :
  arg_port args = None \/ arg_port args = Some 0 ->
  let port_env := match getenv "AWS_SSH_PORT"%string with
                  | Some v => v
                  | None => str "22"
                  end in
  (int_of_str port_env = None ->
   get_ssh_config getenv int_of_str expanduser path_exists args stdin
   = ValueError_int port_env)
  /\ (forall c rest,
        get_ssh_config getenv int_of_str expanduser path_exists args stdin
        = Done (c, rest) ->
        int_of_str port_env = Some (port c)).
Proof.
  intros Hp port_env. unfold get_ssh_config, getenv_default. fold port_env.
  assert (E : match arg_port args with
              | Some 0 | None =>
                  match int_of_str port_env with
                  | Some p => Done p
                  | None => ValueError_int port_env
                  end
              | Some p => Done p
              end
              = match int_of_str port_env with
                | Some p => Done p
                | None => ValueError_int port_env
                end) by (destruct Hp as [->| ->]; reflexivity).
  rewrite E. split.
  - intros ->. reflexivity.
  - intros c rest. destruct (int_of_str port_env) as [p|]; [|discriminate].
    cbn [obind].
    destruct (prompt_host _ stdin) as [[h s1]| | |]; try discriminate.
    cbn [obind].
    destruct (prompt_key _ _ _ s1) as [[k s2]| | |]; try discriminate.
    cbn [obind]. intros H. injection H as <- <-. reflexivity.
Qed.

Lemma ssh_config_port_from_environment_witness :
  get_ssh_config
    (fun name => if String.eqb name "AWS_SSH_PORT"
                 then Some (str "22x") else None)
    int_of_decimal (fun p => p) (fun _ => false)
    {| arg_host := Some (str "10.0.0.1"); arg_user := None;
       arg_key := Some (str "~/k.pem"); arg_port := Some 0;
       arg_verbose := false |} [ str "unread" ]
  = ValueError_int (str "22x").
Proof.
  exact (proj1 (ssh_config_port_from_environment
                  (fun name => if String.eqb name "AWS_SSH_PORT"
                               then Some (str "22x") else None)
                  int_of_decimal (fun p => p) (fun _ => false)
                  {| arg_host := Some (str "10.0.0.1"); arg_user := None;
                     arg_key := Some (str "~/k.pem"); arg_port := Some 0;
                     arg_verbose := false |} [ str "unread" ]
                  (or_intror eq_refl)) eq_refl).
Defined.

(** * The directories of [main] *)

Module DirectoryFacts.
Import PyStrFacts TransportFacts.

Lemma split_on_sep_free (sep : ascii) (s : pystr) :
  forall piece, In piece (split_on sep s) -> ~ In sep piece.
Proof.
  induction s as [|c s IH]; intros piece Hin.
  - destruct Hin as [<-|[]]. intros [].
  - simpl in Hin. destruct (Ascii.eqb_spec c sep) as [->|Hc].
    + destruct Hin as [<-|Hin]; [intros []|now apply IH].
    + destruct (split_on sep s) as [|l ls].
      * destruct Hin as [<-|[]]. intros [E|[]]. now apply Hc.
      * destruct Hin as [<-|Hin].
        -- intros [E|H]; [now apply Hc|]. apply (IH l); [now left|exact H].
        -- apply IH. now right.
Qed.


Lemma split_on_one (sep : ascii) (a : pystr) :
  ~ In sep a -> split_on sep a = [a].
Proof.
  induction a as [|c a IH]; intros H; [reflexivity|].
  simpl. destruct (Ascii.eqb_spec c sep) as [->|Hc].
  - exfalso. apply H. now left.
  - rewrite IH; [reflexivity|]. intros Hin. apply H. now right.
Qed.

Lemma split_on_app (sep : ascii) (a b : pystr) :
  ~ In sep a -> split_on sep (a ++ sep :: b) = a :: split_on sep b.
Proof.
  induction a as [|c a IH]; intros H.
  - simpl. now rewrite Ascii.eqb_refl.
  - simpl. destruct (Ascii.eqb_spec c sep) as [->|Hc].
    + exfalso. apply H. now left.
    + rewrite IH; [reflexivity|]. intros Hin. apply H. now right.
Qed.

(** Splitting at a separator gives back the parts that were joined with
    it. *)
Lemma split_on_join (sep : ascii) (parts : list pystr) :
  parts <> [] -> Forall (fun p => ~ In sep p) parts ->
  split_on sep (join [sep] parts) = parts.
Proof.
  intros Hne H. induction H as [|p ps Hp Hps IH]; [contradiction|].
  destruct ps as [|q qs].
  - simpl. now apply split_on_one.
  - change (join [sep] (p :: q :: qs)) with (p ++ sep :: join [sep] (q :: qs)).
    rewrite (split_on_app sep p _ Hp). f_equal. apply IH. discriminate.
Qed.

Lemma lstrip_In (s : pystr) (c : ascii) : In c (lstrip s) -> In c s.
Proof.
  induction s as [|x s IH]; [intros []|].
  simpl. destruct (isspace x); [|exact (fun H => H)].
  intros H. right. now apply IH.
Qed.

Lemma rstrip_In (s : pystr) (c : ascii) : In c (rstrip s) -> In c s.
Proof.
  induction s as [|x s IH]; [intros []|].
  simpl. destruct (rstrip s) as [|y r].
  - destruct (isspace x); [intros []|]. intros [<-|[]]. now left.
  - intros [<-|H]; [now left|]. right. now apply IH.
Qed.

Lemma strip_In (s : pystr) (c : ascii) : In c (strip s) -> In c s.
Proof. intros H. now apply lstrip_In, rstrip_In. Qed.



Lemma filter_all {A : Type} (f : A -> bool) (l : list A) :
  (forall x, In x l -> f x = true) -> filter f l = l.
Proof.
  induction l as [|x l IH]; intros H; [reflexivity|].
  simpl. rewrite (H x (or_introl eq_refl)). f_equal. apply IH.
  intros y Hy. apply H. now right.
Qed.

End DirectoryFacts.

Import DirectoryFacts.

(** X7: when AWS_SSH_DIRECTORIES is set and not empty, every directory that
    [main] analyses is a non-empty name without a comma and without
    whitespace at either end. *)
Theorem directories_are_clean getenv (user d : pystr) :
  getenv_default getenv "AWS_SSH_DIRECTORIES" [] <> [] ->
  In d (directories_to_check getenv user) ->
  d <> [] /\ strip d = d /\ ~ In ","%char d.
Proof.
  unfold directories_to_check.
  destruct (getenv_default getenv "AWS_SSH_DIRECTORIES" []) as [|c v];
    [contradiction|].
  intros _ Hin. apply in_map_iff in Hin. destruct Hin as (piece & <- & Hp).
  apply filter_In in Hp. destruct Hp as [Hp Hne].
  split; [|split].
  - intros E. rewrite E in Hne. discriminate.
  - apply strip_idem.
  - intros Hc. apply (split_on_sep_free "," (c :: v) piece Hp).
    now apply strip_In.
Qed.

Lemma directories_are_clean_witness :
  str "/b c" <> [] /\ strip (str "/b c") = str "/b c"
  /\ ~ In ","%char (str "/b c").
Proof.
  apply (directories_are_clean (fun _ => Some (str " /a , ,/b c,, "))
           (str "forge") (str "/b c")).
  - discriminate.
  - right. now left.
Defined.

(** X8: the directories come back as they were written: for names that are
    not empty, hold no comma and no whitespace at either end, setting
    AWS_SSH_DIRECTORIES to the names joined with commas makes [main] analyse
    exactly these names, in their order. *)
Theorem directories_round_trip getenv (user : pystr) (names : list pystr) :
  names <> [] ->
  Forall (fun n => n <> [] /\ strip n = n /\ ~ In ","%char n) names ->
  getenv "AWS_SSH_DIRECTORIES"%string = Some (join (str ",") names) ->
  directories_to_check getenv user = names.
Proof.
  intros Hne Hall Henv. unfold directories_to_check, getenv_default.
  rewrite Henv.
  assert (Hsplit : split_on "," (join (str ",") names) = names).
  { apply (split_on_join "," names Hne).
    eapply Forall_impl; [|exact Hall]. now intros n (_ & _ & H). }
  destruct (join (str ",") names) as [|c v] eqn:E.
  - exfalso. destruct names as [|n ns]; [contradiction|].
    inversion Hall as [|? ? (Hn & _) _]; subst.
    destruct n as [|x n]; [contradiction|].
    destruct ns; discriminate.
  - rewrite Hsplit. rewrite Forall_forall in Hall.
    rewrite filter_all.
    + rewrite <- (map_id names) at 2. apply map_ext_in.
      intros n Hn. now destruct (Hall n Hn) as (_ & H & _).
    + intros n Hn. destruct (Hall n Hn) as (H1 & H2 & _).
      rewrite H2. now destruct n.
Qed.

Lemma directories_round_trip_witness :
  directories_to_check
    (fun _ => Some (join (str ",") [ str "/var/log"; str "/srv/my data" ]))
    (str "forge")
  = [ str "/var/log"; str "/srv/my data" ].
Proof.
  apply directories_round_trip; [discriminate| |reflexivity].
  repeat constructor; try discriminate;
    intros H; repeat (destruct H as [H|H]; [discriminate|]); destruct H.
Defined.



(** * The fields of the entries *)

Module EntryFacts.
Import PyStrFacts ListingFacts.

(** Every token of [split] is a word. *)
Lemma split_words (s : pystr) : Forall word (split s).
Proof.
  assert (W1 : forall c, isspace c = false -> word [c]).
  { intros c Hc. split; [discriminate|]. simpl. now rewrite Hc. }
  assert (W2 : forall c t, isspace c = false -> word t -> word (c :: t)).
  { intros c t Hc [_ Ht]. split; [discriminate|]. simpl. now rewrite Hc, Ht. }
  induction s as [|c s IH]; [constructor|].
  simpl. destruct (isspace c) eqn:Hc; [exact IH|].
  destruct s as [|c' s']; [repeat constructor; now apply W1|].
  destruct (isspace c') eqn:Hc'.
  - constructor; [now apply W1|exact IH].
  - destruct (split (c' :: s')) as [|tok toks];
      [repeat constructor; now apply W1|].
    inversion IH; subst. constructor; [now apply W2|assumption].
Qed.

Lemma item_word (parts : list pystr) (i : nat) :
  Forall word parts -> (i < List.length parts)%nat -> word (item parts i).
Proof.
  intros H Hi. rewrite Forall_forall in H. apply H. now apply nth_In.
Qed.

Lemma skipn_words (n : nat) (parts : list pystr) :
  Forall word parts -> Forall word (skipn n parts).
Proof.
  intros H. rewrite Forall_forall in *. intros x Hx. apply H.
  rewrite <- (firstn_skipn n parts). apply in_or_app. now right.
Qed.

Lemma join_words_nonempty (toks : list pystr) :
  toks <> [] -> Forall word toks -> join (str " ") toks <> [].
Proof.
  intros Hne H. destruct toks as [|t ts]; [contradiction|].
  inversion H as [|? ? [Ht _] _]; subst.
  destruct t as [|c t]; [contradiction|]. destruct ts; discriminate.
Qed.

(** Every entry of a parsed listing comes from the tokens of a line with at
    least 9 of them. *)
Lemma parse_listing_In (out : pystr) (e : FileInfo) :
  In e (parse_listing out) ->
  exists line, e = file_info (split line) /\ wide (split line) = true.
Proof.
  rewrite parse_listing_spec. intros H.
  apply in_map_iff in H. destruct H as (parts & <- & H).
  apply filter_In in H. destruct H as [H Hw].
  apply in_map_iff in H. destruct H as (line & <- & _).
  now exists line.
Qed.

End EntryFacts.

Import EntryFacts.

(** X10: the round trip on well-formed output.  For a first line starting
    with "total" and rows each written from at least 9 words with one space
    between them, every row ending in a newline, [list_directory] returns
    one entry per row, in order, whose fields are the words of the row; a
    name of several words comes back as these words with single spaces. *)
Theorem list_directory_round_trip execute_command path res l0
  (table : list (list pystr)) :
  execute_command (ls_command path) = Return res ->
  exit_code res = 0 ->
  stdout res = text_of l0 (map (join (str " ")) table) ++ [nl] ->
  startswith l0 (str "total") = true ->
  no_nl l0 = true ->
  Forall (fun toks => Forall word toks /\ (9 <= List.length toks)%nat) table ->
  list_directory execute_command path = map file_info table
  /\ map (fun e => split (name e)) (list_directory execute_command path)
     = map (skipn 8) table.
Proof.
  intros Hex Hcode Hout Htot Hl0 Htab.
  assert (E : list_directory execute_command path = map file_info table).
  { rewrite (list_directory_ok _ _ _ Hex Hcode), Hout.
    apply parse_listing_round_trip; try assumption.
    eapply Forall_impl; [|exact Htab]. intros toks [Hw Hl].
    split; [exact Hw|]. now apply Nat.leb_le. }
  split; [exact E|]. rewrite E, map_map. apply map_ext_in.
  intros toks Hin. rewrite Forall_forall in Htab.
  destruct (Htab toks Hin) as [Hw _]. cbn [name file_info].
  apply split_join. now apply skipn_words.
Qed.

Lemma list_directory_round_trip_witness :
  map (fun e => split (name e))
    (list_directory
       (answers
          (text_of (str "total 8")
             (map (join (str " "))
                [ map str [ "-rw-r--r--"; "1"; "u"; "g"; "12"; "Jan"; "2";
                            "10:00"; "my"; "report"; "final.txt" ]%string ])
           ++ [nl]))
       (str "/srv"))
  = [ map str [ "my"; "report"; "final.txt" ]%string ].
Proof.
  refine (proj2 (list_directory_round_trip (answers _) (str "/srv")
                   {| stdout := _; stderr := []; exit_code := 0 |}
                   (str "total 8")
                   [ map str [ "-rw-r--r--"; "1"; "u"; "g"; "12"; "Jan"; "2";
                               "10:00"; "my"; "report"; "final.txt" ]%string ]
                   eq_refl eq_refl eq_refl eq_refl eq_refl _)).
  repeat constructor; try discriminate; simpl; lia.
Defined.

(** X11: whatever the command printed, every entry of [list_directory] has
    fields permissions, links, owner, group, size, month, day and time that
    are not empty and hold no whitespace, and a name that is not empty and
    whose words are separated by single spaces only, with none at either
    end. *)
Theorem list_directory_fields execute_command path (e : FileInfo) :
  In e (list_directory execute_command path) ->
  Forall word [ permissions e; links e; owner e; group e; size e; month e;
                day e; time e ]
  /\ name e <> []
  /\ Forall word (split (name e))
  /\ join (str " ") (split (name e)) = name e.
Proof.
  unfold list_directory.
  destruct (execute_command _) as [res|]; [|intros []].
  destruct (negb _); [intros []|]. intros Hin.
  destruct (parse_listing_In _ e Hin) as (line & -> & Hw).
  pose proof (split_words line) as Hparts.
  apply Nat.leb_le in Hw.
  assert (Htail : Forall word (skipn 8 (split line)))
    by now apply skipn_words.
  assert (Hne : skipn 8 (split line) <> []).
  { intros E. pose proof (length_skipn 8 (split line)) as L.
    rewrite E in L. simpl in L. lia. }
  split; [|split; [|split]].
  - cbn [permissions links owner group size month day time file_info].
    repeat constructor; apply item_word; (assumption || lia).
  - cbn [name file_info]. now apply join_words_nonempty.
  - apply split_words.
  - cbn [name file_info]. now rewrite split_join.
Qed.

Lemma list_directory_fields_witness :
  name (file_info (split (str "-rw-r--r--  1 u g 12 Jan  2 10:00 my   file")))
  <> [].
Proof.
  refine (proj1 (proj2 (list_directory_fields
            (answers (str "-rw-r--r--  1 u g 12 Jan  2 10:00 my   file"))
            (str "/") _ _))).
  now left.
Defined.

(** * The errors and the ranking of the summary *)

Module RankingFacts.
Import PyStrFacts PyNumFacts SizeFacts SortFacts SummaryFacts.

Lemma py_float_raise (s : pystr) (e : exn) :
  py_float s = Raise e -> e = ValueError_float s.
Proof.
  unfold py_float. destruct (parse_decimal s) as [[ds k]|].
  - destruct (digits_value ds); discriminate.
  - intros H. now injection H.
Qed.

Lemma parse_size_raise (s : pystr) (e : exn) :
  _parse_size s = Raise e -> exists x, e = ValueError_float x.
Proof.
  unfold _parse_size.
  repeat match goal with
         | |- context [if ?b then _ else _] => destruct b
         end; try discriminate;
    match goal with
    | |- context [py_float ?x] =>
        destruct (py_float x) as [f|e'] eqn:E; cbn [bind]; [discriminate|];
        intros H; injection H as <-; exists x; now apply py_float_raise
    end.
Qed.

Lemma add_size_raise (t : pynum) (s : pystr) (e : exn) :
  add_size t s = Raise e -> _parse_size s = Raise e.
Proof.
  destruct (isdigit (remove_char "." s)) eqn:G.
  - rewrite (add_size_plain_token t s G), (parse_size_plain_token s G).
    destruct (py_float s); [discriminate|]. exact (fun H => H).
  - rewrite (add_size_other t s G). discriminate.
Qed.

Lemma add_size_plain (t : pynum) (s : pystr) (t' : pynum) :
  plain t -> add_size t s = Return t' -> plain t'.
Proof.
  intros Ht. destruct (isdigit (remove_char "." s)) eqn:G.
  - rewrite (add_size_plain_token t s G).
    destruct (py_float s) as [f|] eqn:E; [|discriminate].
    cbn [bind]. intros H. injection H as <-.
    apply py_add_plain; [exact Ht|]. now apply (py_float_nonneg s).
  - rewrite (add_size_other t s G). intros H. now injection H as <-.
Qed.

Lemma total_size_loop_plain (files : list FileInfo) :
  forall t0 t, plain t0 -> total_size_loop t0 files = Return t -> plain t.
Proof.
  induction files as [|f files IH]; intros t0 t Ht0.
  - intros H. now injection H as <-.
  - simpl. destruct (add_size t0 (size f)) as [t1|] eqn:E; [|discriminate].
    cbn [bind]. apply IH. now apply (add_size_plain t0 (size f)).
Qed.

Lemma total_size_loop_raise (files : list FileInfo) :
  forall t0 e, total_size_loop t0 files = Raise e ->
  exists f, In f files /\ _parse_size (size f) = Raise e.
Proof.
  induction files as [|f files IH]; intros t0 e; [discriminate|].
  simpl. destruct (add_size t0 (size f)) as [t1|e1] eqn:E; cbn [bind].
  - intros H. destruct (IH t1 e H) as (g & Hg & Hr).
    exists g. split; [now right|exact Hr].
  - intros H. injection H as <-. exists f. split; [now left|].
    now apply (add_size_raise t0).
Qed.

Lemma decorate_raise (files : list FileInfo) :
  forall e, decorate files = Raise e ->
  exists f, In f files /\ _parse_size (size f) = Raise e.
Proof.
  induction files as [|f files IH]; intros e; [discriminate|].
  simpl. destruct (_parse_size (size f)) as [k|e1] eqn:E; cbn [bind].
  - destruct (decorate files) as [ks|e2]; cbn [bind]; [discriminate|].
    intros H. injection H as <-. destruct (IH e2 eq_refl) as (g & Hg & Hr).
    exists g. split; [now right|exact Hr].
  - intros H. injection H as <-. exists f. split; [now left|exact E].
Qed.

(** The body of the summary raises only what [_parse_size] raises on the
    size token of one of the entries. *)
Lemma summary_body_raise (path : pystr) (files : list FileInfo) (e : exn) :
  summary_body path files = Raise e ->
  exists f, In f files /\ _parse_size (size f) = Raise e.
Proof.
  unfold summary_body, largest_files.
  destruct (total_size_loop (PyInt 0) files) as [t|e1] eqn:Et; cbn [bind].
  - pose proof (total_size_loop_plain files (PyInt 0) t (or_introl eq_refl) Et)
      as Ht.
    destruct (human_readable_returns t Ht) as [h ->]. cbn [bind].
    destruct (decorate files) as [ks|e2] eqn:Ek; cbn [bind]; [discriminate|].
    intros H. injection H as <-. now apply decorate_raise.
  - intros H. injection H as <-. now apply (total_size_loop_raise files _ _ Et).
Qed.

(** ** A list already in descending order is left as it is *)

Lemma sort_asc_sorted_id {A : Type} (l : list (pynum * A)) :
  StronglySorted (fun a b => key_ge b a) l -> sort_asc l = l.
Proof.
  induction 1 as [|x l Hs IH Hx]; [reflexivity|].
  simpl. rewrite IH. destruct l as [|y l']; [reflexivity|].
  simpl. inversion Hx as [|? ? Hxy _]; subst.
  unfold key_ge in Hxy. now rewrite Hxy.
Qed.

Lemma sorted_reverse_sorted_id {A : Type} (l : list (pynum * A)) :
  StronglySorted key_ge l -> sorted_reverse l = l.
Proof.
  intros H. unfold sorted_reverse.
  rewrite (sort_asc_sorted_id (rev l)); [apply rev_involutive|].
  exact (StronglySorted_rev key_ge l H).
Qed.

Lemma py_lt_irrefl (a : pynum) : py_lt a a = false.
Proof.
  destruct (py_lt a a) eqn:E; [|reflexivity].
  now rewrite (py_lt_asym a a E) in E.
Qed.

(** ** The keys are comparable *)

Lemma plain_value (a : pynum) :
  plain a ->
  value a = XInf false
  \/ exists q, value a = XFin q /\ (0 <= Qnum q)%Z.
Proof.
  intros [->|[f [-> Hf]]]; [right; exists (inject_Z 0); now split|].
  destruct f as [s|s| |s m e]; simpl in Hf; try discriminate;
    apply negb_true_iff in Hf; subst s.
  - right. exists (inject_Z 0). now split.
  - now left.
  - right. eexists. split; [reflexivity|].
    unfold dyadic. cbn [cond_Zopp].
    destruct e; cbn [Qnum inject_Z]; try lia;
      (apply Z.mul_nonneg_nonneg; [lia|apply Z.pow_nonneg; lia]).
Qed.

End RankingFacts.

Import RankingFacts.

(** X12: the summary of a non-empty listing is accessible exactly when
    [_parse_size] returns on the size token of every entry, and it then has
    the keys path, accessible, total_items, directories, files, total_size
    and largest_files.  Otherwise it is path, accessible = False and, as
    error, the text of the ValueError that [float] raised on the size token
    of one of the entries: nothing else can make a non-empty listing
    inaccessible. *)
Theorem summary_accessible_or_float_error (path : pystr)
  (files : list FileInfo) :
  files <> [] ->
  (sizes_parse files
   /\ get (directory_summary path files) "accessible" = Some (VBool true)
   /\ keys (directory_summary path files)
      = [ "path"; "accessible"; "total_items"; "directories"; "files";
          "total_size"; "largest_files" ]%string)
  \/ (~ sizes_parse files
      /\ exists f x,
           In f files
           /\ _parse_size (size f) = Raise (ValueError_float x)
           /\ directory_summary path files
              = [ ("path"%string, VStr path);
                  ("accessible"%string, VBool false);
                  ("error"%string, VStrOfExn (ValueError_float x)) ]).
Proof.
  intros Hne. destruct (summary_body path files) as [d|e] eqn:E.
  - left. pose proof (summary_body_sizes_parse path files d E) as Hs.
    destruct (directory_summary_nonempty path files Hne Hs)
      as (t & h & ks & _ & _ & _ & ->).
    split; [exact Hs|]. split; reflexivity.
  - right. destruct (summary_body_raise path files e E) as (f & Hf & Hr).
    destruct (parse_size_raise _ _ Hr) as [x ->].
    split.
    + intros Hs. destruct (Hs f Hf) as [k Hk]. congruence.
    + exists f, x. split; [exact Hf|]. split; [exact Hr|].
      destruct files as [|g files]; [contradiction|].
      unfold directory_summary. now rewrite E.
Qed.

Lemma summary_accessible_or_float_error_witness :
  get (directory_summary (str "/") [ entry_of_size "2M"; entry_of_size "1KK" ])
    "error"
  = Some (VStrOfExn (ValueError_float (str "1K"))).
Proof.
  destruct (summary_accessible_or_float_error (str "/")
              [ entry_of_size "2M"; entry_of_size "1KK" ])
    as [(_ & H & _)|(_ & f & x & _ & _ & _)]; [discriminate| |reflexivity].
  vm_compute in H. discriminate.
Defined.

(** X13: in an accessible summary of a non-empty listing, largest_files
    holds min(3, number of entries) entries, all of them entries of the
    listing, and no entry of the listing has a size key above the key of
    the first of them. *)
Theorem largest_files_top (path : pystr) (files : list FileInfo) :
  files <> [] -> sizes_parse files ->
  exists largest,
    get (directory_summary path files) "largest_files" = Some (VFiles largest)
    /\ List.length largest = Nat.min 3 (List.length files)
    /\ (forall e, In e largest -> In e files)
    /\ exists top rest,
         largest = top :: rest
         /\ forall f k_top k_f,
              In f files ->
              _parse_size (size top) = Return k_top ->
              _parse_size (size f) = Return k_f ->
              py_lt k_top k_f = false.
Proof.
  intros Hne Hs.
  destruct (directory_summary_nonempty path files Hne Hs)
    as (t & h & ks & _ & _ & Ek & ->).
  destruct (decorate_spec files ks Ek) as [Hmap Hkeys].
  pose proof (sorted_reverse_perm ks) as Hperm.
  pose proof (sorted_reverse_sorted ks (decorate_plain files ks Ek)) as Hsorted.
  assert (Hmem : forall e, In e (map snd (sorted_reverse ks)) -> In e files).
  { intros e He. rewrite <- Hmap. apply in_map_iff in He.
    destruct He as (x & <- & Hx). apply in_map.
    now apply (Permutation_in x Hperm). }
  assert (Hlen : List.length (map snd (sorted_reverse ks))
                 = List.length files).
  { now rewrite length_map, (Permutation_length Hperm), <- Hmap, length_map. }
  exists (firstn 3 (map snd (sorted_reverse ks))).
  split; [reflexivity|]. split; [now rewrite length_firstn, Hlen|].
  split.
  { intros e He. apply Hmem.
    rewrite <- (firstn_skipn 3 (map snd (sorted_reverse ks))).
    apply in_or_app. now left. }
  destruct (sorted_reverse ks) as [|[k0 top] ranked] eqn:Er.
  { exfalso. destruct files; [contradiction|discriminate]. }
  exists top, (firstn 2 (map snd ranked)). split; [reflexivity|].
  intros f k_top k_f Hf Htop Hkf.
  rewrite Forall_forall in Hkeys.
  assert (H0 : _parse_size (size top) = Return k0).
  { apply (Hkeys (k0, top)).
    apply (Permutation_in (k0, top) Hperm). now left. }
  assert (k0 = k_top) by congruence. subst k0.
  rewrite <- Hmap in Hf. apply in_map_iff in Hf.
  destruct Hf as ([k f'] & Ef & Hin). simpl in Ef. subst f'.
  assert (k = k_f) by (pose proof (Hkeys (k, f) Hin) as H; simpl in H;
                       congruence).
  subst k.
  apply (Permutation_in (k_f, f) (Permutation_sym Hperm)) in Hin.
  destruct Hin as [E|Hin].
  - injection E as <- _. apply py_lt_irrefl.
  - inversion Hsorted as [|? ? _ Hall]; subst.
    rewrite Forall_forall in Hall. exact (Hall (k_f, f) Hin).
Qed.

Lemma largest_files_top_witness :
  exists largest,
    get (directory_summary (str "/")
           (map entry_of_size [ "7"; "5K"; "7"; "9" ]%string)) "largest_files"
    = Some (VFiles largest)
    /\ List.length largest = 3%nat.
Proof.
  destruct (largest_files_top (str "/")
              (map entry_of_size [ "7"; "5K"; "7"; "9" ]%string))
    as (largest & H1 & H2 & _).
  - discriminate.
  - intros f [<-|[<-|[<-|[<-|[]]]]]; eexists; vm_compute; reflexivity.
  - exists largest. split; [exact H1|exact H2].
Defined.

(** X14: when the entries of a non-empty listing already come in descending
    order of their size keys, entries with equal keys allowed, largest_files
    is the first three entries of the listing, in their order. *)
Theorem largest_files_of_descending (path : pystr) (files : list FileInfo)
  (ks : list (pynum * FileInfo)) :
  files <> [] ->
  decorate files = Return ks ->
  StronglySorted key_ge ks ->
  get (directory_summary path files) "largest_files"
  = Some (VFiles (firstn 3 files)).
Proof.
  intros Hne Ek Hsorted.
  pose proof (decorate_sizes_parse files ks Ek) as Hs.
  destruct (directory_summary_nonempty path files Hne Hs)
    as (t & h & ks' & _ & _ & Ek' & ->).
  assert (ks' = ks) by congruence. subst ks'.
  rewrite (sorted_reverse_sorted_id ks Hsorted).
  destruct (decorate_spec files ks Ek) as [-> _]. reflexivity.
Qed.

Lemma largest_files_of_descending_witness :
  get (directory_summary (str "/")
         (map entry_of_size [ "5K"; "7"; "7.0"; "4,"; "-" ]%string))
    "largest_files"
  = Some (VFiles (map entry_of_size [ "5K"; "7"; "7.0" ]%string)).
Proof.
  eapply (largest_files_of_descending (str "/")
            (map entry_of_size [ "5K"; "7"; "7.0"; "4,"; "-" ]%string)).
  - discriminate.
  - vm_compute. reflexivity.
  - repeat constructor.
Defined.

(** X15: what [_parse_size] returns is never a NaN and never below 0, so
    any two of its results compare: one is below the other or they are
    equal. *)
Theorem parse_size_keys_compare (s t : pystr) (a b : pynum) :
  _parse_size s = Return a ->
  _parse_size t = Return b ->
  is_nan a = false
  /\ py_lt a (PyInt 0) = false
  /\ (py_lt a b = true \/ py_eq a b = true \/ py_lt b a = true).
Proof.
  intros Ha Hb.
  pose proof (parse_size_plain s a Ha) as Pa.
  pose proof (parse_size_plain t b Hb) as Pb.
  split; [now apply plain_not_nan|]. split.
  - unfold py_lt, py_compare.
    destruct (plain_value a Pa) as [->|(q & -> & Hq)]; [reflexivity|].
    cbn [value xcompare]. unfold Qcompare. cbn [Qnum Qden inject_Z].
    rewrite Z.mul_1_r. cbn [Z.mul].
    destruct (Z.compare_spec (Qnum q) 0); try reflexivity. lia.
  - unfold py_lt, py_eq, py_compare.
    destruct (plain_value a Pa) as [->|(p & -> & _)];
      destruct (plain_value b Pb) as [->|(q & -> & _)]; cbn [xcompare];
      try tauto.
    rewrite <- (Qcompare_antisym p q).
    destruct (p ?= q)%Q; cbn [CompOpp]; tauto.
Qed.

Lemma parse_size_keys_compare_witness :
  py_lt (PyFloat (float_of_int 512)) (PyInt 0) = false.
Proof.
  exact (proj1 (proj2 (parse_size_keys_compare (str "512") (str "abc")
                         (PyFloat (float_of_int 512)) (PyInt 0)
                         eq_refl eq_refl))).
Defined.

(** X16: a token that holds a character other than the digits of
    [str.isdigit], the point and the letters K, M, G makes [_parse_size]
    return 0 without calling [float], wherever the character stands. *)
Theorem parse_size_foreign_character (s : pystr) (c : ascii) :
  In c s ->
  isdigit_char c = false ->
  ~ In c [ "."; "K"; "M"; "G" ]%char ->
  _parse_size s = Return (PyInt 0).
Proof.
  intros Hin Hc Hout.
  assert (Hne : forall x, In x [ "."; "K"; "M"; "G" ]%char -> c <> x)
    by (intros x Hx ->; now apply Hout).
  assert (G : isdigit (remove_char "G" (remove_char "M" (remove_char "K"
                         (remove_char "." s)))) = false).
  { destruct (isdigit _) eqn:E; [|reflexivity].
    rewrite (isdigit_forall _ E c) in Hc; [discriminate|].
    repeat apply remove_char_In; try exact Hin; apply Hne; simpl; tauto. }
  unfold _parse_size. rewrite G. cbn [negb].
  now rewrite orb_true_r.
Qed.

Lemma parse_size_foreign_character_witness :
  _parse_size (str "4,") = Return (PyInt 0).
Proof.
  apply (parse_size_foreign_character (str "4,") ","%char).
  - right. now left.
  - reflexivity.
  - intros H. repeat (destruct H as [H|H]; [discriminate|]). destruct H.
Defined.

(** * The total of integer sizes is exact *)

Module ExactFacts.
Import Exact PyStrFacts PyNumFacts SizeFacts SummaryFacts.

Lemma digits_shl n j : bit_length (shl n j) = bit_length n + Z.of_nat j.
Proof.
  unfold bit_length, shl. induction j as [|j IH].
  - simpl. lia.
  - rewrite Nat.iter_succ. cbn [digits2_pos]. lia.
Qed.

Lemma shl_value n j : Zpos (shl n j) = Zpos n * 2 ^ Z.of_nat j.
Proof.
  unfold shl. induction j as [|j IH].
  - simpl. lia.
  - rewrite Nat.iter_succ, Nat2Z.inj_succ, Z.pow_succ_r by lia.
    rewrite Pos2Z.inj_xO, IH. lia.
Qed.

Lemma digits_pos n : 1 <= bit_length n.
Proof. unfold bit_length. lia. Qed.

Lemma digits_lower n : 2 ^ (bit_length n - 1) <= Zpos n.
Proof.
  unfold bit_length. induction n as [n IH|n IH|].
  - cbn [digits2_pos]. rewrite Pos2Z.inj_succ.
    replace (Z.succ (Zpos (digits2_pos n)) - 1)
      with (Z.succ (Zpos (digits2_pos n) - 1)) by lia.
    rewrite Z.pow_succ_r by lia. lia.
  - cbn [digits2_pos]. rewrite Pos2Z.inj_succ.
    replace (Z.succ (Zpos (digits2_pos n)) - 1)
      with (Z.succ (Zpos (digits2_pos n) - 1)) by lia.
    rewrite Z.pow_succ_r by lia. lia.
  - simpl. lia.
Qed.

Lemma digits_le_53 n : Zpos n < 2 ^ 53 -> bit_length n <= 53.
Proof.
  intros H. pose proof (digits_lower n) as L.
  destruct (Z_le_gt_dec (bit_length n) 53) as [|G]; [assumption|].
  exfalso. assert (2 ^ 53 <= 2 ^ (bit_length n - 1)).
  { apply Z.pow_le_mono_r; lia. }
  lia.
Qed.

Lemma iter_pos_nat {A : Type} (f : A -> A) (p : positive) (x : A) :
  iter_pos f p x = Nat.iter (Pos.to_nat p) f x.
Proof.
  revert x. induction p as [p IH|p IH|]; intros x; cbn [iter_pos].
  - rewrite !IH, Pos2Nat.inj_xI.
    replace (S (2 * Pos.to_nat p))%nat
      with (Pos.to_nat p + (Pos.to_nat p + 1))%nat by lia.
    rewrite !Nat.iter_add. reflexivity.
  - rewrite !IH, Pos2Nat.inj_xO.
    replace (2 * Pos.to_nat p)%nat with (Pos.to_nat p + Pos.to_nat p)%nat
      by lia.
    now rewrite Nat.iter_add.
  - reflexivity.
Qed.

Lemma shr_shl (m : positive) (j : nat) :
  Nat.iter j shr_1 (Build_shr_record (Zpos (shl m j)) false false)
  = Build_shr_record (Zpos m) false false.
Proof.
  induction j as [|j IH]; [reflexivity|].
  rewrite Nat.iter_succ_r. unfold shl. rewrite Nat.iter_succ.
  cbn [shr_1 orb]. exact IH.
Qed.

(** Rounding a mantissa that is a 53-bit mantissa followed by [j] zero bits. *)
Lemma round_exact (m : positive) (e : Z) (j : nat) :
  bit_length m = 53 -> -1074 <= e <= 971 ->
  binary_round_aux prec emax false (Zpos (shl m j)) (e - Z.of_nat j) loc_Exact
  = S754_finite false m e.
Proof.
  intros Hd He. unfold binary_round_aux.
  assert (S1 : shr_fexp prec emax (Zpos (shl m j)) (e - Z.of_nat j) loc_Exact
               = (Build_shr_record (Zpos m) false false, e)).
  { unfold shr_fexp. cbn [Zdigits2 shr_record_of_loc].
    fold (bit_length (shl m j)). rewrite digits_shl, Hd.
    replace (fexp prec emax (53 + Z.of_nat j + (e - Z.of_nat j))
             - (e - Z.of_nat j)) with (Z.of_nat j)
      by (unfold fexp, SpecFloat.emin, prec, emax; lia).
    destruct j as [|j].
    - simpl. f_equal. lia.
    - unfold shr. cbn [Z.of_nat]. rewrite iter_pos_nat, SuccNat2Pos.id_succ.
      rewrite shr_shl. f_equal. lia. }
  rewrite S1. cbn [shr_m loc_of_shr_record round_nearest_even].
  assert (S2 : shr_fexp prec emax (Zpos m) e loc_Exact
               = (Build_shr_record (Zpos m) false false, e)).
  { unfold shr_fexp. cbn [Zdigits2 shr_record_of_loc]. fold (bit_length m).
    rewrite Hd.
    replace (fexp prec emax (53 + e) - e) with 0
      by (unfold fexp, SpecFloat.emin, prec, emax; lia).
    reflexivity. }
  rewrite S2. cbn [shr_m].
  destruct (Z.leb_spec e (emax - prec)) as [_|H]; [reflexivity|].
  unfold emax, prec in H. lia.
Qed.

Lemma shl_shl n a b : shl (shl n a) b = shl n (a + b).
Proof. unfold shl. rewrite Nat.add_comm. symmetry. apply Nat.iter_add. Qed.

Lemma shl_align_le (m : positive) (e e' : Z) :
  e' <= e -> shl_align m e e' = (shl m (Z.to_nat (e - e')), e').
Proof.
  intros H. unfold shl_align. destruct (e' - e) as [|p|p] eqn:E; try lia.
  - replace (e - e') with 0 by lia. simpl. f_equal. lia.
  - rewrite Pos2Nat.inj_iter. unfold shl, Nat.iter.
    replace (Z.to_nat (e - e')) with (Pos.to_nat p) by lia. reflexivity.
Qed.

Lemma shl_align_ge (m : positive) (e e' : Z) :
  e <= e' -> shl_align m e e' = (m, e).
Proof.
  intros H. unfold shl_align. destruct (e' - e) as [|p|p] eqn:E; try lia;
    reflexivity.
Qed.

(** Rounding an integer below 2^53 written with [t] zero bits after it. *)
Lemma binary_round_exact (n : positive) (t : nat) :
  Zpos n < 2 ^ 53 ->
  binary_round prec emax false (shl n t) (- Z.of_nat t) = canon n.
Proof.
  intros Hn. pose proof (digits_le_53 n Hn) as Hd.
  pose proof (digits_pos n) as Hd1.
  unfold binary_round. fold (bit_length (shl n t)). rewrite digits_shl.
  replace (fexp prec emax (bit_length n + Z.of_nat t + - Z.of_nat t))
    with (bit_length n - 53) by (unfold fexp, SpecFloat.emin, prec, emax; lia).
  set (k := Z.to_nat (53 - bit_length n)).
  assert (Hk : bit_length (shl n k) = 53) by (rewrite digits_shl; lia).
  destruct (Z_le_gt_dec (bit_length n - 53) (- Z.of_nat t)) as [L|G].
  - rewrite shl_align_le by exact L. rewrite shl_shl.
    replace (t + Z.to_nat (- Z.of_nat t - (bit_length n - 53)))%nat with k by lia.
    pose proof (round_exact (shl n k) (bit_length n - 53) 0 Hk ltac:(lia)) as R.
    cbn [shl Nat.iter nat_rect Z.of_nat] in R. rewrite Z.sub_0_r in R.
    exact R.
  - rewrite shl_align_ge by lia.
    replace (shl n t) with (shl (shl n k) (t - k)) by (rewrite shl_shl; f_equal; lia).
    replace (- Z.of_nat t) with (bit_length n - 53 - Z.of_nat (t - k)) by lia.
    apply round_exact; [exact Hk|lia].
Qed.

Lemma float_of_int_exact (z : Z) : 0 <= z < 2 ^ 53 -> float_of_int z = exact_float z.
Proof.
  intros Hz. destruct z as [|n|n]; [reflexivity| |lia].
  unfold float_of_int, binary_normalize.
  exact (binary_round_exact n 0 (proj2 Hz)).
Qed.

Lemma float_of_ratio_exact (n : positive) :
  Zpos n < 2 ^ 53 -> float_of_ratio n 1 = canon n.
Proof.
  intros Hn. pose proof (digits_le_53 n Hn) as Hd.
  pose proof (digits_pos n) as Hd1.
  unfold float_of_ratio, SFdiv_core_binary.
  cbn [Zdigits2 digits2_pos]. fold (bit_length n).
  replace (Z.min (fexp prec emax (bit_length n + 0 - (1 + 0))) (0 - 0))
    with (bit_length n - 54) by (unfold fexp, SpecFloat.emin, prec, emax; lia).
  replace (0 - 0 - (bit_length n - 54)) with (Z.of_nat (S (Z.to_nat (53 - bit_length n))))
    by lia.
  set (k := Z.to_nat (53 - bit_length n)).
  assert (Hk : bit_length (shl n k) = 53) by (rewrite digits_shl; lia).
  cbn [Z.of_nat].
  assert (M : Z.shiftl (Zpos n) (Zpos (Pos.of_succ_nat k))
              = Zpos (shl (shl n k) 1)).
  { rewrite Z.shiftl_mul_pow2 by lia. rewrite shl_shl, shl_value.
    f_equal. f_equal. lia. }
  rewrite M.
  pose proof (Z.div_1_r (Zpos (shl (shl n k) 1))) as Q.
  pose proof (Z.mod_1_r (Zpos (shl (shl n k) 1))) as R.
  unfold Z.div, Z.modulo in Q, R.
  destruct (Z.div_eucl (Zpos (shl (shl n k) 1)) 1) as [q r].
  subst q r. change (new_location 1 0) with loc_Exact.
  replace (bit_length n - 54) with (bit_length n - 53 - Z.of_nat 1) by lia.
  apply round_exact; [exact Hk|lia].
Qed.

Lemma canon_shl (n : positive) :
  Zpos n < 2 ^ 53 ->
  exists k, canon n = S754_finite false (shl n k) (- Z.of_nat k)
            /\ (k <= 52)%nat.
Proof.
  intros Hn. pose proof (digits_le_53 n Hn). pose proof (digits_pos n).
  exists (Z.to_nat (53 - bit_length n)). split; [|lia].
  unfold canon. f_equal. lia.
Qed.

Lemma fadd_exact (a b : Z) :
  0 <= a -> 0 <= b -> a + b < 2 ^ 53 -> fadd (exact_float a) (exact_float b) = exact_float (a + b).
Proof.
  intros Ha Hb Hs.
  destruct a as [|n|n]; [|destruct b as [|m|m]|]; try lia.
  - destruct b as [|m|m]; try lia; reflexivity.
  - rewrite Z.add_0_r. reflexivity.
  - destruct (canon_shl n ltac:(lia)) as (kn & En & Hkn).
    destruct (canon_shl m ltac:(lia)) as (km & Em & Hkm).
    cbn [exact_float Z.add]. rewrite En, Em. unfold fadd, SFadd.
    set (ez := Z.min (- Z.of_nat kn) (- Z.of_nat km)).
    rewrite !shl_align_le by (subst ez; lia). cbn [fst cond_Zopp Z.add].
    unfold binary_normalize.
    set (t := Z.to_nat (- ez)).
    assert (E : (shl (shl n kn) (Z.to_nat (- Z.of_nat kn - ez))
                 + shl (shl m km) (Z.to_nat (- Z.of_nat km - ez)))%positive
                = shl (n + m) t).
    { apply Pos2Z.inj. rewrite Pos2Z.inj_add, !shl_shl, !shl_value.
      rewrite Pos2Z.inj_add.
      replace (Z.of_nat (kn + Z.to_nat (- Z.of_nat kn - ez)))
        with (Z.of_nat t) by (subst t ez; lia).
      replace (Z.of_nat (km + Z.to_nat (- Z.of_nat km - ez)))
        with (Z.of_nat t) by (subst t ez; lia).
      lia. }
    rewrite E. replace ez with (- Z.of_nat t) by (subst t ez; lia).
    apply binary_round_exact. lia.
Qed.

Lemma value_F (z : Z) :
  0 <= z < 2 ^ 53 ->
  exists q, value (PyFloat (exact_float z)) = XFin q /\ (q == inject_Z z)%Q.
Proof.
  intros Hz. destruct z as [|n|n]; [|  |lia].
  - exists (inject_Z 0). split; reflexivity.
  - destruct (canon_shl n (proj2 Hz)) as (k & E & _).
    cbn [exact_float]. rewrite E. cbn [value cond_Zopp]. eexists. split; [reflexivity|].
    unfold dyadic. destruct k as [|k].
    + cbn [Z.of_nat Z.opp]. unfold Qeq. cbn [Qnum Qden inject_Z].
      rewrite shl_value. cbn [Z.of_nat]. rewrite !Z.pow_0_r. lia.
    + cbn [Z.of_nat Z.opp]. unfold Qeq. cbn [Qnum Qden inject_Z].
      rewrite shl_value, Pos2Z.inj_pow. cbn [Z.of_nat]. lia.
Qed.

Lemma Qcompare_inject_Z (a b : Z) : (inject_Z a ?= inject_Z b)%Q = (a ?= b).
Proof. unfold Qcompare. cbn [Qnum Qden inject_Z]. now rewrite !Z.mul_1_r. Qed.

Lemma py_compare_F (z c : Z) :
  0 <= z < 2 ^ 53 -> py_compare (PyFloat (exact_float z)) (PyInt c) = Some (z ?= c).
Proof.
  intros Hz. destruct (value_F z Hz) as (q & E & Hq).
  unfold py_compare. rewrite E. cbn [value xcompare].
  now rewrite Hq, Qcompare_inject_Z.
Qed.

Lemma py_int_F (z : Z) : 0 <= z < 2 ^ 53 -> py_int (PyFloat (exact_float z)) = Return z.
Proof.
  intros Hz. destruct z as [|n|n]; [reflexivity| |lia].
  destruct (canon_shl n (proj2 Hz)) as (k & E & _).
  cbn [exact_float]. rewrite E. cbn [py_int cond_Zopp]. f_equal.
  destruct k as [|k]; cbn [Z.of_nat Z.opp].
  - rewrite shl_value. cbn [Z.of_nat]. rewrite !Z.pow_0_r. lia.
  - rewrite shl_value. cbn [Z.of_nat].
    now rewrite Z.div_mul by (apply Z.pow_nonzero; lia).
Qed.

Lemma digits_value_nonneg (s : pystr) :
  forallb is_ascii_digit s = true -> 0 <= digits_value s.
Proof.
  unfold digits_value.
  assert (G : forall acc, 0 <= acc ->
            forallb is_ascii_digit s = true ->
            0 <= fold_left (fun acc c => 10 * acc + digit_value c) s acc).
  { induction s as [|c s IH]; intros acc Hacc H; [exact Hacc|].
    simpl in H. apply andb_true_iff in H. destruct H as [Hc Hs].
    cbn [fold_left]. apply IH; [|exact Hs].
    unfold is_ascii_digit in Hc. apply andb_true_iff in Hc.
    destruct Hc as [H1 H2]. apply N.leb_le in H1.
    unfold digit_value. lia. }
  now apply G.
Qed.

Lemma span_digits_all (s : pystr) :
  forallb is_ascii_digit s = true -> span_digits s = (s, []).
Proof.
  induction s as [|c s IH]; [reflexivity|].
  simpl. intros H. apply andb_true_iff in H. destruct H as [Hc Hs].
  now rewrite Hc, (IH Hs).
Qed.

Lemma py_float_digit_token (s : pystr) :
  digit_token s -> digits_value s < 2 ^ 53 ->
  py_float s = Return (exact_float (digits_value s)).
Proof.
  intros [Hne Hd] Hv. unfold py_float, parse_decimal.
  rewrite (span_digits_all s Hd).
  destruct s as [|c s]; [contradiction|].
  pose proof (digits_value_nonneg _ Hd) as H0.
  destruct (digits_value (c :: s)) as [|n|n] eqn:E; [reflexivity| |lia].
  cbn [exact_float]. f_equal. change (Z.to_pos (10 ^ Z.of_nat 0)) with 1%positive.
  now apply float_of_ratio_exact.
Qed.

Lemma digit_token_guard (s : pystr) :
  digit_token s -> isdigit (remove_char "." s) = true.
Proof.
  intros [Hne Hd].
  assert (E : remove_char "." s = s).
  { apply remove_char_id. intros Hin.
    pose proof (proj1 (forallb_forall _ _) Hd _ Hin). discriminate. }
  rewrite E. destruct s as [|c s]; [contradiction|].
  unfold isdigit. apply forallb_forall. intros x Hx.
  apply ascii_digit_isdigit.
  exact (proj1 (forallb_forall _ _) Hd x Hx).
Qed.

Lemma add_size_digit_token (t : pynum) (a : Z) (s : pystr) :
  to_float t = exact_float a -> 0 <= a ->
  digit_token s -> a + digits_value s < 2 ^ 53 ->
  add_size t s = Return (PyFloat (exact_float (a + digits_value s))).
Proof.
  intros Ht Ha Hs Hsum.
  pose proof (digits_value_nonneg s (proj2 Hs)) as Hv.
  rewrite (add_size_plain_token t s (digit_token_guard s Hs)).
  rewrite (py_float_digit_token s Hs) by lia. cbn [bind].
  f_equal.
  assert (E : py_add t (PyFloat (exact_float (digits_value s)))
              = PyFloat (fadd (to_float t) (exact_float (digits_value s))))
    by now destruct t.
  rewrite E, Ht. f_equal. apply fadd_exact; lia.
Qed.

Lemma sizes_sum_nonneg (files : list FileInfo) :
  (forall f, In f files -> digit_token (size f)) -> 0 <= sizes_sum files.
Proof.
  induction files as [|f files IH]; intros H; [simpl; lia|].
  simpl. pose proof (digits_value_nonneg _ (proj2 (H f (or_introl eq_refl)))).
  assert (0 <= sizes_sum files) by (apply IH; intros g Hg; apply H; now right).
  lia.
Qed.

Lemma total_size_loop_exact (files : list FileInfo) :
  forall t a,
    to_float t = exact_float a -> 0 <= a ->
    files <> [] ->
    (forall f, In f files -> digit_token (size f)) ->
    a + sizes_sum files < 2 ^ 53 ->
    total_size_loop t files = Return (PyFloat (exact_float (a + sizes_sum files))).
Proof.
  induction files as [|f files IH]; intros t a Ht Ha Hne Hd Hs;
    [contradiction|].
  pose proof (Hd f (or_introl eq_refl)) as Hf.
  pose proof (digits_value_nonneg _ (proj2 Hf)) as Hv.
  assert (Hrest : forall g, In g files -> digit_token (size g))
    by (intros g Hg; apply Hd; now right).
  pose proof (sizes_sum_nonneg files Hrest) as Hr.
  cbn [sizes_sum fold_right] in Hs |- *. fold (sizes_sum files) in Hs |- *.
  cbn [total_size_loop].
  rewrite (add_size_digit_token t a (size f) Ht Ha Hf) by lia. cbn [bind].
  destruct files as [|g files].
  - cbn [total_size_loop sizes_sum fold_right]. do 3 f_equal. lia.
  - rewrite (IH (PyFloat (exact_float (a + digits_value (size f))))
               (a + digits_value (size f))); try reflexivity; try lia;
      try discriminate; try assumption.
    do 3 f_equal. lia.
Qed.

Lemma digits_value_le_sum (files : list FileInfo) (f : FileInfo) :
  (forall g, In g files -> digit_token (size g)) ->
  In f files -> digits_value (size f) <= sizes_sum files.
Proof.
  induction files as [|g files IH]; intros H Hin; [destruct Hin|].
  cbn [sizes_sum fold_right]. fold (sizes_sum files).
  assert (Hrest : forall x, In x files -> digit_token (size x))
    by (intros x Hx; apply H; now right).
  pose proof (sizes_sum_nonneg files Hrest).
  pose proof (digits_value_nonneg _ (proj2 (H g (or_introl eq_refl)))).
  destruct Hin as [->|Hin]; [lia|]. pose proof (IH Hrest Hin). lia.
Qed.

End ExactFacts.

Import Exact ExactFacts.

(** X17: for a non-empty listing whose size tokens are all made of ASCII
    digits and add up to less than 2 ^ 53, the total of the summary is the
    exact sum of the sizes: the accumulated float equals the sum, the
    total_size shown is the human form of that float, and up to 1024 it is
    the sum in decimal followed by " bytes". *)
Theorem total_size_exact (path : pystr) (files : list FileInfo) :
  files <> [] ->
  (forall f, In f files -> digit_token (size f)) ->
  sizes_sum files < 2 ^ 53 ->
  total_size_loop (PyInt 0) files
  = Return (PyFloat (float_of_int (sizes_sum files)))
  /\ py_eq (PyFloat (float_of_int (sizes_sum files))) (PyInt (sizes_sum files))
     = true
  /\ (exists h,
        human_readable (PyFloat (float_of_int (sizes_sum files))) = Return h
        /\ get (directory_summary path files) "total_size" = Some (VStr h))
  /\ (sizes_sum files <= 1024 ->
      get (directory_summary path files) "total_size"
      = Some (VStr (str_of_int (sizes_sum files) ++ str " bytes"))).
Proof.
  intros Hne Hd Hlt.
  pose proof (sizes_sum_nonneg files Hd) as H0.
  rewrite (float_of_int_exact (sizes_sum files)) by lia.
  assert (Et : total_size_loop (PyInt 0) files
               = Return (PyFloat (exact_float (sizes_sum files)))).
  { exact (total_size_loop_exact files (PyInt 0) 0 eq_refl ltac:(lia) Hne Hd
             ltac:(lia)). }
  assert (Hs : sizes_parse files).
  { intros f Hf. pose proof (Hd f Hf) as Htok.
    rewrite (parse_size_plain_token _ (digit_token_guard _ Htok)).
    rewrite (py_float_digit_token _ Htok);
      [cbn [bind]; eauto|].
    pose proof (digits_value_le_sum files f Hd Hf). lia. }
  destruct (directory_summary_nonempty path files Hne Hs)
    as (t & h & ks & Et' & Eh & _ & Ed).
  assert (t = PyFloat (exact_float (sizes_sum files))) by congruence. subst t.
  split; [exact Et|]. split; [|split].
  - unfold py_eq. rewrite py_compare_F by lia. now rewrite Z.compare_refl.
  - exists h. split; [exact Eh|]. now rewrite Ed.
  - intros Hle. rewrite Ed. cbn [get String.eqb Ascii.eqb Bool.eqb].
    do 2 f_equal.
    assert (G : forall c, 1024 <= c ->
              py_gt (PyFloat (exact_float (sizes_sum files))) (PyInt c)
              = false).
    { intros c Hc. unfold py_gt. rewrite py_compare_F by lia.
      destruct (Z.compare_spec (sizes_sum files) c); try reflexivity. lia. }
    unfold human_readable in Eh.
    rewrite !G, py_int_F in Eh by lia. cbn [bind] in Eh. congruence.
Qed.

Lemma total_size_exact_witness :
  get (directory_summary (str "/")
         (map entry_of_size [ "512"; "300"; "007" ]%string)) "total_size"
  = Some (VStr (str "819 bytes")).
Proof.
  refine (proj2 (proj2 (proj2 (total_size_exact (str "/")
            (map entry_of_size [ "512"; "300"; "007" ]%string) _ _ _))) _).
  - discriminate.
  - intros f [<-|[<-|[<-|[]]]]; split; (discriminate || reflexivity).
  - reflexivity.
  - discriminate.
Defined.
